(** * The verb dispatcher of src/basic/verbs.c

    A shallow embedding of [running_in_chroot_or_offline] and
    [dispatch_verb], and the properties of the dispatcher proved on it.

    C [int] and [unsigned] values are integers of [Z] with their ranges
    written out; the argument vector is the array of nullable strings the
    C code receives; diagnostics and handler calls are recorded, in order,
    in a trace carried by the program state. *)

From Stdlib Require Import ZArith List String Bool Lia.
Import ListNotations.

Local Open Scope string_scope.
Local Open Scope list_scope.
Local Open Scope Z_scope.

(** ** Machine integers *)

Definition INT_MIN : Z := - 2 ^ 31.
Definition INT_MAX : Z := 2 ^ 31 - 1.
Definition UINT_MAX : Z := 2 ^ 32 - 1.

(** The conversion [(unsigned) x] of an [int]. *)
Definition to_unsigned (x : Z) : Z := x mod 2 ^ 32.

(** [EINVAL] of errno.h (its Linux value). *)
Definition EINVAL : Z := 22.

(** ** verbs.h

    Modelled from the spec: verbs.h is not part of the sources at hand. It
    declares the sentinel of an unbounded argument count and the three
    policy bits of a verb; the dispatcher only compares with the first and
    masks with the others, so they are kept abstract. *)
Class VerbsH : Type := {
  VERB_ANY : Z;
  VERB_DEFAULT : Z;
  VERB_ONLINE_ONLY : Z;
  VERB_MUST_BE_ROOT : Z
}.

(** The values systemd gives them: [((unsigned) -1)], [1 << 0], [1 << 1]
    and [1 << 2]. *)
#[global] Instance systemd_verbs_h : VerbsH := {|
  VERB_ANY := to_unsigned (-1);
  VERB_DEFAULT := Z.shiftl 1 0;
  VERB_ONLINE_ONLY := Z.shiftl 1 1;
  VERB_MUST_BE_ROOT := Z.shiftl 1 2
|}.

(** ** Outcomes of a computation

    A C computation on a state [W] returns a value and a new state, stops
    on a failed [assert] ([Abort]), or has no defined behaviour ([Undef]:
    a read outside an array, signed overflow). *)
Inductive Res (W A : Type) : Type :=
| Ok (a : A) (w : W)
| Abort
| Undef.
Arguments Ok {W A} a w.
Arguments Abort {W A}.
Arguments Undef {W A}.

Definition M (W A : Type) : Type := W -> Res W A.

Definition ret {W A} (a : A) : M W A := fun w => Ok a w.

Definition bind {W A B} (m : M W A) (k : A -> M W B) : M W B :=
  fun w =>
    match m w with
    | Ok a w' => k a w'
    | Abort => Abort
    | Undef => Undef
    end.

Definition undef {W A} : M W A := fun _ => Undef.

(** [assert(b)]. *)
Definition assert_ {W} (b : bool) : M W unit :=
  fun w => if b then Ok tt w else Abort.

Declare Scope c_scope.
Delimit Scope c_scope with c.
Notation "x <- m ;; k" := (bind m (fun x => k))
  (at level 61, m at next level, right associativity) : c_scope.
Notation "m ;; k" := (bind m (fun _ => k))
  (at level 61, right associativity) : c_scope.
Local Open Scope c_scope.

(** [a - b] on [int]; overflow is undefined. *)
Definition int_sub {W} (a b : Z) : M W Z :=
  if (INT_MIN <=? a - b) && (a - b <=? INT_MAX) then ret (a - b) else undef.

(** [streq(a, b)]. *)
Definition streq (a b : string) : bool := String.eqb a b.

(** ** The argument vector

    [char *argv[]]: an array of pointers, each a string or [NULL]
    ([None]). [argv_at argv i] is the read [argv[i]]; it is defined only
    inside the array. [argv_from argv i] is the pointer [argv + i], seen
    as the array that starts there. *)
Definition Argv : Type := list (option string).

Definition argv_at (argv : Argv) (i : Z) : option (option string) :=
  if i <? 0 then None else nth_error argv (Z.to_nat i).

Definition argv_from (argv : Argv) (i : Z) : Argv := skipn (Z.to_nat i) argv.

(** An argument vector terminated at index [argc]: [argc] strings followed
    by the [NULL] that ends them. *)
Definition is_string (p : option string) : bool :=
  match p with Some _ => true | None => false end.

Definition terminated_at (argv : Argv) (argc : Z) : bool :=
  forallb is_string (firstn (Z.to_nat argc) argv) &&
  match nth_error argv (Z.to_nat argc) with
  | Some None => true
  | _ => false
  end.

Section Dispatcher.

Context {vh : VerbsH}.

(** Handlers are function pointers: values of a type [Handler], whose code
    is given by [invoke] below. [Userdata] is what [void *userdata] points
    to. *)
Context {Handler Userdata : Type}.

(** ** Verb tables *)

(** [struct Verb]. A null [dispatch] marks the end of a table. *)
Record Verb : Type := {
  verb : string;
  min_args : Z;
  max_args : Z;
  flags : Z;
  dispatch : option Handler
}.

(** ** Program state *)

Inductive LogLevel : Type := LOG_ERR | LOG_INFO | LOG_DEBUG.

(** What the dispatcher does to the outside, in order: a diagnostic (its
    level, the error passed to a [log_*_errno] call or [0], and the text)
    or the call of a handler with its arguments. *)
Inductive Event : Type :=
| EvLog (level : LogLevel) (error : Z) (msg : string)
| EvCall (h : Handler) (argc : Z) (argv : Argv).

(** The state the code reads and writes: getopt's global [optind], the
    answers of the collaborators it consults, and the trace.

    Modelled from the spec: [getenv_bool] (env-util), [running_in_chroot]
    (virt) and [must_be_root] are not part of the sources at hand. Each is
    a query of the process environment that answers with an [int]: for
    [getenv_bool] a positive value when the variable parses to true, [0]
    when it parses to false and a negative error when it is unset or does
    not parse; for [running_in_chroot] a positive value in a chroot, [0]
    outside and a negative error when the probe fails; for [must_be_root]
    [0] or a negative error. *)
Record World : Type := {
  optind : Z;
  env_bool : string -> Z;
  chroot_probe : Z;
  root_check : Z;
  trace : list Event
}.

Definition emit (e : Event) (w : World) : World :=
  {| optind := optind w;
     env_bool := env_bool w;
     chroot_probe := chroot_probe w;
     root_check := root_check w;
     trace := trace w ++ [e] |}.

Definition getenv_bool (p : string) : M World Z := fun w => Ok (env_bool w p) w.
Definition running_in_chroot : M World Z := fun w => Ok (chroot_probe w) w.
Definition must_be_root : M World Z := fun w => Ok (root_check w) w.
Definition get_optind : M World Z := fun w => Ok (optind w) w.

Definition log_error (msg : string) : M World unit :=
  fun w => Ok tt (emit (EvLog LOG_ERR 0 msg) w).
Definition log_info (msg : string) : M World unit :=
  fun w => Ok tt (emit (EvLog LOG_INFO 0 msg) w).
Definition log_debug_errno (r : Z) (msg : string) : M World unit :=
  fun w => Ok tt (emit (EvLog LOG_DEBUG r msg) w).

(** The code behind the function pointers. A handler is any computation on
    the state. *)
Variable invoke : Handler -> Z -> Argv -> Userdata -> M World Z.

(** The call [h(argc, argv, userdata)]. *)
Definition call (h : Handler) (argc : Z) (argv : Argv) (userdata : Userdata)
  : M World Z :=
  fun w => invoke h argc argv userdata (emit (EvCall h argc argv) w).

(** The handler calls recorded in a state. *)
Definition is_call (e : Event) : bool :=
  match e with EvCall _ _ _ => true | EvLog _ _ _ => false end.

Definition calls (w : World) : list Event := filter is_call (trace w).

(** ** running_in_chroot_or_offline (verbs.c, lines 37-72) *)
Definition running_in_chroot_or_offline : M World bool :=
  r <- getenv_bool "SYSTEMD_OFFLINE" ;;
  if r <? 0 then
    log_debug_errno r "Parsing SYSTEMD_OFFLINE: %m" ;;
    r <- running_in_chroot ;;
    if r <? 0 then
      log_debug_errno r "running_in_chroot(): %m" ;;
      ret false
    else if r >? 0 then ret true
    else ret false
  else if r =? 0 then ret false
  else ret true.

(** ** dispatch_verb (verbs.c, lines 74-153) *)

Definition has_flag (v : Verb) (mask : Z) : bool :=
  negb (Z.land (flags v) mask =? 0).

(** Lines 101-104: whether the entry is the one looked for. *)
Definition found (name : option string) (v : Verb) : bool :=
  match name with
  | Some n => streq n (verb v)
  | None => has_flag v VERB_DEFAULT
  end.

(** Lines 89-110, the scan of [verbs[i]], [verbs[i+1]], ...: it leaves the
    function with a return value ([inl]) or the loop with the entry found
    and its handler ([inr]). Reading past the array is undefined. *)
Fixpoint find_verb (name : option string) (verbs : list Verb)
  : M World (Z + Verb * Handler) :=
  match verbs with
  | [] => undef
  | v :: rest =>
      match dispatch v with
      | None =>
          match name with
          | Some n => log_error ("Unknown operation " ++ n ++ ".")%string
          | None => log_error "Requires operation parameter."
          end ;;
          ret (inl (- EINVAL))
      | Some h =>
          if found name v then ret (inr (v, h))
          else find_verb name rest
      end
  end.

(** Line 129, the condition
    [(verb->flags & VERB_ONLINE_ONLY) && running_in_chroot_or_offline()]:
    the predicate is asked only of an online-only verb. *)
Definition skip_offline (v : Verb) : M World bool :=
  if has_flag v VERB_ONLINE_ONLY then running_in_chroot_or_offline
  else ret false.

(** Lines 137-141: [r] of the privilege check, [0] when none is made. *)
Definition check_root (v : Verb) : M World Z :=
  if has_flag v VERB_MUST_BE_ROOT then must_be_root else ret 0.

(** Lines 129-152: the policy gates and the call of the handler. *)
Definition run_verb (name : option string) (left : Z) (v : Verb) (h : Handler)
    (argv : Argv) (userdata : Userdata) : M World Z :=
  skip <- skip_offline v ;;
  if skip then
    match name with
    | Some n => log_info ("Running in chroot, ignoring request: " ++ n)%string
    | None => log_info "Running in chroot, ignoring request."
    end ;;
    ret 0
  else
    r <- check_root v ;;
    if r <? 0 then ret r
    else
      match name with
      | Some _ =>
          oi <- get_optind ;;
          call h left (argv_from argv oi) userdata
      | None => call h 1 [Some (verb v); None] userdata
      end.

(** Lines 114-127, then the rest: the argument count seen by the entry and
    its two bounds. *)
Definition check_verb (name : option string) (left : Z) (v : Verb) (h : Handler)
    (argv : Argv) (userdata : Userdata) : M World Z :=
  let left := match name with Some _ => left | None => 1 end in
  if negb (min_args v =? VERB_ANY) && (to_unsigned left <? min_args v) then
    log_error "Too few arguments." ;;
    ret (- EINVAL)
  else if negb (max_args v =? VERB_ANY) && (to_unsigned left >? max_args v) then
    log_error "Too many arguments." ;;
    ret (- EINVAL)
  else run_verb name left v h argv userdata.

(** The whole function. [assert(verbs)] and [assert(argv)] hold of any
    list; [assert(verbs[0].dispatch)] reads the first entry. *)
Definition dispatch_verb (argc : Z) (argv : Argv) (verbs : list Verb)
    (userdata : Userdata) : M World Z :=
  match verbs with
  | [] => undef
  | v0 :: _ =>
      assert_ (match dispatch v0 with Some _ => true | None => false end)
  end ;;
  assert_ (argc >=? 0) ;;
  oi <- get_optind ;;
  assert_ (argc >=? oi) ;;
  left <- int_sub argc oi ;;
  name <- (match argv_at argv oi with
           | Some p => ret p
           | None => undef
           end) ;;
  r <- find_verb name verbs ;;
  match r with
  | inl code => ret code
  | inr (v, h) => check_verb name left v h argv userdata
  end.

(** ** Notions of the specification *)

(** The argument count a matched entry is checked against and called
    with: the arguments left after the options, or [1] when the verb was
    left out and the default stands in (lines 86 and 114-115). *)
Definition effective_left (name : option string) (argc oi : Z) : Z :=
  match name with
  | Some _ => argc - oi
  | None => 1
  end.

(** A count within the lower, respectively upper, bound of an entry. *)
Definition min_ok (v : Verb) (n : Z) : Prop :=
  min_args v = VERB_ANY \/ min_args v <= n.

Definition max_ok (v : Verb) (n : Z) : Prop :=
  max_args v = VERB_ANY \/ n <= max_args v.

(** The entries the scan passes over: they have a handler and are not the
    one looked for. *)
Definition passed (name : option string) (pre : list Verb) : Prop :=
  Forall (fun u => dispatch u <> None /\ found name u = false) pre.

(** [v], with handler [h], is the entry the invocation selects: the
    asserted preconditions hold, [name] is what [argv[optind]] holds, and
    [v] is the first entry of the table [pre ++ v :: _] that matches it. *)
Record Matched (argc : Z) (argv : Argv) (w : World) (name : option string)
    (pre : list Verb) (v : Verb) (h : Handler) : Prop := {
  m_argc : 0 <= argc <= INT_MAX;
  m_optind : optind w <= argc;
  m_name : argv_at argv (optind w) = Some name;
  m_pre : passed name pre;
  m_found : found name v = true;
  m_handler : dispatch v = Some h
}.

(** The diagnostic of a failed lookup (lines 94-97). *)
Definition lookup_failure (name : option string) : Event :=
  match name with
  | Some n => EvLog LOG_ERR 0 ("Unknown operation " ++ n ++ ".")%string
  | None => EvLog LOG_ERR 0 "Requires operation parameter."
  end.

(** The notice of a skipped verb (lines 130-133). *)
Definition skip_notice (name : option string) : Event :=
  match name with
  | Some n =>
      EvLog LOG_INFO 0 ("Running in chroot, ignoring request: " ++ n)%string
  | None => EvLog LOG_INFO 0 "Running in chroot, ignoring request."
  end.

(** The events logged at debug level. *)
Definition is_debug_log (e : Event) : bool :=
  match e with
  | EvLog LOG_DEBUG _ _ => true
  | _ => false
  end.

(** The argument vector handed to the handler (lines 144 and 146-151). *)
Definition handler_argv (name : option string) (v : Verb) (argv : Argv)
    (oi : Z) : Argv :=
  match name with
  | Some _ => argv_from argv oi
  | None => [Some (verb v); None]
  end.

(** ** The error taxonomy *)

(** The kinds of failure the specification tells apart. *)
Inductive ErrorKind : Type :=
| UnknownVerb
| MissingVerb
| TooFewArguments
| TooManyArguments
| PermissionDenied.

(** [Fails argc argv w verbs k]: the invocation, that meets the asserted
    preconditions, fails with kind [k]. This follows the words of the
    specification's taxonomy: a supplied name that matches no entry; no
    name and no entry flagged as the default; an argument count below the
    lower or above the upper bound of the selected entry; a privilege
    check that fails for a selected entry that requires it, all earlier
    gates passed. *)
Inductive Fails (argc : Z) (argv : Argv) (w : World)
  : list Verb -> ErrorKind -> Prop :=
| Fails_unknown (n : string) (pre post : list Verb) (t : Verb) :
    0 <= argc <= INT_MAX -> optind w <= argc ->
    argv_at argv (optind w) = Some (Some n) ->
    pre <> [] -> dispatch t = None ->
    Forall (fun u => dispatch u <> None /\ verb u <> n) pre ->
    Fails argc argv w (pre ++ t :: post) UnknownVerb
| Fails_missing (pre post : list Verb) (t : Verb) :
    0 <= argc <= INT_MAX -> optind w <= argc ->
    argv_at argv (optind w) = Some None ->
    pre <> [] -> dispatch t = None ->
    Forall (fun u => dispatch u <> None /\ has_flag u VERB_DEFAULT = false)
      pre ->
    Fails argc argv w (pre ++ t :: post) MissingVerb
| Fails_too_few (name : option string) (pre post : list Verb) (v : Verb)
    (h : Handler) :
    Matched argc argv w name pre v h ->
    min_args v <> VERB_ANY ->
    effective_left name argc (optind w) < min_args v ->
    Fails argc argv w (pre ++ v :: post) TooFewArguments
| Fails_too_many (name : option string) (pre post : list Verb) (v : Verb)
    (h : Handler) :
    Matched argc argv w name pre v h ->
    min_ok v (effective_left name argc (optind w)) ->
    max_args v <> VERB_ANY ->
    max_args v < effective_left name argc (optind w) ->
    Fails argc argv w (pre ++ v :: post) TooManyArguments
| Fails_denied (name : option string) (pre post : list Verb) (v : Verb)
    (h : Handler) (w1 : World) :
    Matched argc argv w name pre v h ->
    min_ok v (effective_left name argc (optind w)) ->
    max_ok v (effective_left name argc (optind w)) ->
    skip_offline v w = Ok false w1 ->
    has_flag v VERB_MUST_BE_ROOT = true ->
    root_check w < 0 ->
    Fails argc argv w (pre ++ v :: post) PermissionDenied.

(** ** Tables and traces as a whole *)

(** The state after a run of events. *)
Definition emits (evs : list Event) (w : World) : World :=
  fold_left (fun w' e => emit e w') evs w.

(** A table that holds the entry that ends it. *)
Definition is_terminator (v : Verb) : bool :=
  match dispatch v with
  | None => true
  | Some _ => false
  end.

Definition has_terminator (verbs : list Verb) : bool :=
  existsb is_terminator verbs.

End Dispatcher.

(** * A table and its invocations

    The scenario of the specification: a tool with a default verb
    [status] and a verb [restart] that only runs online and as root. *)

Inductive ScenarioHandler : Type := H1 | H2.

(** The handlers return a value of their own, to tell them apart. *)
Definition scenario_invoke (h : ScenarioHandler) (argc : Z) (argv : Argv)
    (userdata : unit) : M (@World ScenarioHandler) Z :=
  ret (match h with H1 => 101 | H2 => 102 end).

Definition verb_status : @Verb ScenarioHandler :=
  {| verb := "status"; min_args := 1; max_args := 1;
     flags := VERB_DEFAULT; dispatch := Some H1 |}.

Definition verb_restart : @Verb ScenarioHandler :=
  {| verb := "restart"; min_args := 1; max_args := 2;
     flags := Z.lor VERB_ONLINE_ONLY VERB_MUST_BE_ROOT; dispatch := Some H2 |}.

(** The entry [{}] that ends a table. *)
Definition verb_end : @Verb ScenarioHandler :=
  {| verb := ""; min_args := 0; max_args := 0; flags := 0; dispatch := None |}.

Definition scenario_table : list (@Verb ScenarioHandler) :=
  [verb_status; verb_restart; verb_end].

(** A process state: [optind], what [getenv_bool("SYSTEMD_OFFLINE")],
    [running_in_chroot()] and [must_be_root()] answer, and an empty trace.
    [-6] is [-ENXIO], the answer for a variable that is not set, [-1] is
    [-EPERM]. *)
Definition scenario_world (oi offline chroot root : Z)
  : @World ScenarioHandler :=
  {| optind := oi;
     env_bool :=
       fun p => if String.eqb p "SYSTEMD_OFFLINE" then offline else -6;
     chroot_probe := chroot;
     root_check := root;
     trace := [] |}.

Definition scenario_dispatch (argc : Z) (argv : Argv) :=
  dispatch_verb scenario_invoke argc argv scenario_table tt.

Definition argv_none : Argv := [Some "tool"; None].
Definition argv_restart : Argv := [Some "tool"; Some "restart"; None].
Definition argv_restart_now : Argv :=
  [Some "tool"; Some "restart"; Some "now"; None].
Definition argv_restart_now_x : Argv :=
  [Some "tool"; Some "restart"; Some "now"; Some "x"; None].
Definition argv_frobnicate : Argv := [Some "tool"; Some "frobnicate"; None].

(** A second table: a default verb [list] that only runs online and takes
    at most itself, and a verb [enable] that wants at least one operand. *)
Definition verb_list : @Verb ScenarioHandler :=
  {| verb := "list"; min_args := VERB_ANY; max_args := 1;
     flags := Z.lor VERB_DEFAULT VERB_ONLINE_ONLY; dispatch := Some H1 |}.

Definition verb_enable : @Verb ScenarioHandler :=
  {| verb := "enable"; min_args := 2; max_args := VERB_ANY;
     flags := 0; dispatch := Some H2 |}.

Definition unit_table : list (@Verb ScenarioHandler) :=
  [verb_list; verb_enable; verb_end].

Definition argv_enable : Argv := [Some "tool"; Some "enable"; None].
Definition argv_enable_a_b : Argv :=
  [Some "tool"; Some "enable"; Some "a"; Some "b"; None].
Definition argv_list_x : Argv := [Some "tool"; Some "list"; Some "x"; None].

(** Two tables of one verb, the default: [exec] wants an operand, [reload]
    wants root. *)
Definition verb_exec : @Verb ScenarioHandler :=
  {| verb := "exec"; min_args := 2; max_args := VERB_ANY;
     flags := VERB_DEFAULT; dispatch := Some H1 |}.

Definition verb_reload : @Verb ScenarioHandler :=
  {| verb := "reload"; min_args := VERB_ANY; max_args := VERB_ANY;
     flags := Z.lor VERB_DEFAULT VERB_MUST_BE_ROOT; dispatch := Some H1 |}.

Definition exec_table : list (@Verb ScenarioHandler) := [verb_exec; verb_end].
Definition reload_table : list (@Verb ScenarioHandler) :=
  [verb_reload; verb_end].

(** * Properties of the dispatcher *)

Section Properties.

Context {vh : VerbsH}.
Context {Handler Userdata : Type}.
Variable invoke : Handler -> Z -> Argv -> Userdata -> M (@World Handler) Z.

Local Abbreviation World := (@World Handler).
Local Abbreviation Verb := (@Verb Handler).
Local Abbreviation Event := (@Event Handler).
Local Abbreviation call := (call invoke).
Local Abbreviation run_verb := (run_verb invoke).
Local Abbreviation check_verb := (check_verb invoke).
Local Abbreviation dispatch_verb := (dispatch_verb invoke).

(** ** Basic facts *)

Ltac unfold_c :=
  unfold bind, ret, undef, assert_, int_sub, get_optind, getenv_bool,
    running_in_chroot, must_be_root, log_error, log_info, log_debug_errno,
    call in *.

Lemma calls_emit_log (lvl : LogLevel) (r : Z) (msg : string) (w : World) :
  calls (emit (EvLog lvl r msg) w) = calls w.
Proof.
  unfold calls, emit; simpl.
  rewrite filter_app; simpl. apply app_nil_r.
Qed.


Lemma to_unsigned_small (x : Z) : 0 <= x <= INT_MAX -> to_unsigned x = x.
Proof.
  unfold INT_MAX, to_unsigned; intros Hx.
  apply Z.mod_small. lia.
Qed.

Lemma streq_true (a b : string) : streq a b = true <-> a = b.
Proof. apply String.eqb_eq. Qed.

Lemma streq_false (a b : string) : streq a b = false <-> a <> b.
Proof. apply String.eqb_neq. Qed.

Lemma chroot_probe_emit (e : Event) (w : World) :
  chroot_probe (emit e w) = chroot_probe w.
Proof. reflexivity. Qed.

(** The predicate only reads the environment and logs. *)
Lemma running_in_chroot_or_offline_total (w : World) :
  exists b w',
    running_in_chroot_or_offline w = Ok b w' /\
    calls w' = calls w /\
    optind w' = optind w /\
    root_check w' = root_check w.
Proof.
  unfold running_in_chroot_or_offline; unfold_c.
  destruct (env_bool w "SYSTEMD_OFFLINE" <? 0).
  - simpl. destruct (chroot_probe w <? 0).
    + eexists _, _; split; [reflexivity|].
      now rewrite !calls_emit_log.
    + destruct (chroot_probe w >? 0); eexists _, _; (split; [reflexivity|]);
        now rewrite calls_emit_log.
  - destruct (env_bool w "SYSTEMD_OFFLINE" =? 0);
      eexists _, _; (split; [reflexivity|]); auto.
Qed.

Lemma skip_offline_total (v : Verb) (w : World) :
  exists b w',
    skip_offline v w = Ok b w' /\
    calls w' = calls w /\
    optind w' = optind w /\
    root_check w' = root_check w.
Proof.
  unfold skip_offline.
  destruct (has_flag v VERB_ONLINE_ONLY).
  - apply running_in_chroot_or_offline_total.
  - exists false, w. unfold ret. auto.
Qed.

Lemma skip_offline_inv (v : Verb) (w w' : World) (b : bool) :
  skip_offline v w = Ok b w' ->
  calls w' = calls w /\ optind w' = optind w /\ root_check w' = root_check w.
Proof.
  intros H. destruct (skip_offline_total v w) as (b0 & w0 & H0 & Hc).
  rewrite H in H0. now inversion H0; subst.
Qed.

(** ** The lookup *)

Lemma find_verb_found (name : option string) (pre post : list Verb) (v : Verb)
    (h : Handler) (w : World) :
  passed name pre -> dispatch v = Some h -> found name v = true ->
  find_verb name (pre ++ v :: post) w = Ok (inr (v, h)) w.
Proof.
  intros Hpre Hh Hf.
  induction Hpre as [|u pre [Hu Hnf] _ IH]; simpl.
  - now rewrite Hh, Hf.
  - destruct (dispatch u); [|contradiction].
    now rewrite Hnf.
Qed.

Lemma find_verb_end (name : option string) (pre post : list Verb) (t : Verb)
    (w : World) :
  passed name pre -> dispatch t = None ->
  find_verb name (pre ++ t :: post) w =
  Ok (inl (- EINVAL)) (emit (lookup_failure name) w).
Proof.
  intros Hpre Ht.
  induction Hpre as [|u pre [Hu Hnf] _ IH]; simpl.
  - rewrite Ht. now destruct name.
  - destruct (dispatch u); [|contradiction].
    now rewrite Hnf.
Qed.

(** Lines 80-87: with the assertions true and [argv[optind]] inside the
    array, the function is the scan followed by the checks. *)
Lemma dispatch_verb_prelude (argc : Z) (argv : Argv) (verbs : list Verb)
    (userdata : Userdata) (w : World) (name : option string) (v0 : Verb)
    (rest : list Verb) :
  verbs = v0 :: rest -> dispatch v0 <> None ->
  0 <= argc <= INT_MAX -> optind w <= argc ->
  argv_at argv (optind w) = Some name ->
  dispatch_verb argc argv verbs userdata w =
  match find_verb name verbs w with
  | Ok (inl code) w' => Ok code w'
  | Ok (inr (v, h)) w' => check_verb name (argc - optind w) v h argv userdata w'
  | Abort => Abort
  | Undef => Undef
  end.
Proof.
  intros -> Hv0 Hargc Hoi Hname.
  assert (0 <= optind w) as Hoi0.
  { unfold argv_at in Hname. destruct (optind w <? 0) eqn:E; [discriminate|].
    now apply Z.ltb_ge in E. }
  unfold dispatch_verb; unfold_c.
  destruct (dispatch v0) as [h0|] eqn:Ed; [|contradiction].
  replace (argc >=? 0) with true by (symmetry; apply Z.geb_le; lia).
  replace (argc >=? optind w) with true by (symmetry; apply Z.geb_le; lia).
  replace ((INT_MIN <=? argc - optind w) && (argc - optind w <=? INT_MAX))
    with true.
  2:{ symmetry. apply andb_true_iff. unfold INT_MIN, INT_MAX in *.
      split; apply Z.leb_le; lia. }
  unfold ret. cbv beta iota. rewrite Hname. cbv beta iota.
  destruct (find_verb name (v0 :: rest) w) as [[c|[v h]] w'| |]; reflexivity.
Qed.

Lemma passed_head (name : option string) (pre post : list Verb) (v : Verb) :
  passed name pre -> dispatch v <> None ->
  exists v0 rest, pre ++ v :: post = v0 :: rest /\ dispatch v0 <> None.
Proof.
  intros Hpre Hv. destruct Hpre as [|u pre [Hu _] _]; simpl; eauto.
Qed.

Lemma dispatch_verb_matched (argc : Z) (argv : Argv) (userdata : Userdata)
    (w : World) (name : option string) (pre post : list Verb) (v : Verb)
    (h : Handler) :
  Matched argc argv w name pre v h ->
  dispatch_verb argc argv (pre ++ v :: post) userdata w =
  check_verb name (argc - optind w) v h argv userdata w.
Proof.
  intros [Hargc Hoi Hname Hpre Hf Hh].
  destruct (passed_head name pre post v Hpre) as (v0 & rest & E & Hv0);
    [congruence|].
  rewrite (dispatch_verb_prelude argc argv _ userdata w name v0 rest);
    auto.
  now rewrite (find_verb_found name pre post v h w).
Qed.

Lemma matched_left_range (argc : Z) (argv : Argv) (w : World)
    (name : option string) (pre : list Verb) (v : Verb) (h : Handler) :
  Matched argc argv w name pre v h ->
  0 <= effective_left name argc (optind w) <= INT_MAX.
Proof.
  intros [Hargc Hoi Hname _ _ _].
  unfold argv_at in Hname. destruct (optind w <? 0) eqn:E; [discriminate|].
  apply Z.ltb_ge in E.
  unfold effective_left, INT_MAX in *. destruct name; lia.
Qed.

(** ** The argument count (lines 114-127) *)

Lemma check_verb_too_few (name : option string) (left : Z) (v : Verb)
    (h : Handler) (argv : Argv) (userdata : Userdata) (w : World) :
  let n := match name with Some _ => left | None => 1 end in
  0 <= n <= INT_MAX ->
  min_args v <> VERB_ANY -> n < min_args v ->
  check_verb name left v h argv userdata w =
  Ok (- EINVAL) (emit (EvLog LOG_ERR 0 "Too few arguments.") w).
Proof.
  intros n Hn Hany Hlt. unfold check_verb. fold n.
  rewrite (to_unsigned_small n Hn).
  apply Z.eqb_neq in Hany. apply Z.ltb_lt in Hlt.
  now rewrite Hany, Hlt.
Qed.

Lemma min_ok_test (v : Verb) (n : Z) :
  min_ok v n -> negb (min_args v =? VERB_ANY) && (n <? min_args v) = false.
Proof.
  intros [H|H].
  - apply Z.eqb_eq in H. now rewrite H.
  - apply Z.ltb_ge in H. rewrite H. apply andb_false_r.
Qed.

Lemma max_ok_test (v : Verb) (n : Z) :
  max_ok v n -> negb (max_args v =? VERB_ANY) && (n >? max_args v) = false.
Proof.
  intros [H|H].
  - apply Z.eqb_eq in H. now rewrite H.
  - rewrite Z.gtb_ltb. apply Z.ltb_ge in H. rewrite H. apply andb_false_r.
Qed.

Lemma check_verb_too_many (name : option string) (left : Z) (v : Verb)
    (h : Handler) (argv : Argv) (userdata : Userdata) (w : World) :
  let n := match name with Some _ => left | None => 1 end in
  0 <= n <= INT_MAX ->
  min_ok v n -> max_args v <> VERB_ANY -> max_args v < n ->
  check_verb name left v h argv userdata w =
  Ok (- EINVAL) (emit (EvLog LOG_ERR 0 "Too many arguments.") w).
Proof.
  intros n Hn Hmin Hany Hgt. unfold check_verb. fold n.
  rewrite (to_unsigned_small n Hn), (min_ok_test v n Hmin).
  apply Z.eqb_neq in Hany. rewrite Hany, Z.gtb_ltb.
  apply Z.ltb_lt in Hgt. now rewrite Hgt.
Qed.

Lemma check_verb_ok (name : option string) (left : Z) (v : Verb)
    (h : Handler) (argv : Argv) (userdata : Userdata) (w : World) :
  let n := match name with Some _ => left | None => 1 end in
  0 <= n <= INT_MAX ->
  min_ok v n -> max_ok v n ->
  check_verb name left v h argv userdata w =
  run_verb name n v h argv userdata w.
Proof.
  intros n Hn Hmin Hmax. unfold check_verb. fold n.
  now rewrite (to_unsigned_small n Hn), (min_ok_test v n Hmin),
    (max_ok_test v n Hmax).
Qed.

(** ** The policy gates and the call (lines 129-152) *)

Lemma run_verb_skipped (name : option string) (left : Z) (v : Verb)
    (h : Handler) (argv : Argv) (userdata : Userdata) (w w1 : World) :
  skip_offline v w = Ok true w1 ->
  run_verb name left v h argv userdata w = Ok 0 (emit (skip_notice name) w1).
Proof.
  intros Hs. unfold run_verb, bind. rewrite Hs.
  now destruct name.
Qed.

Lemma run_verb_denied (name : option string) (left : Z) (v : Verb)
    (h : Handler) (argv : Argv) (userdata : Userdata) (w w1 : World) :
  skip_offline v w = Ok false w1 ->
  has_flag v VERB_MUST_BE_ROOT = true -> root_check w1 < 0 ->
  run_verb name left v h argv userdata w = Ok (root_check w1) w1.
Proof.
  intros Hs Hf Hr. unfold run_verb, bind. rewrite Hs.
  unfold check_root. rewrite Hf. unfold must_be_root.
  apply Z.ltb_lt in Hr. now rewrite Hr.
Qed.

Lemma run_verb_invoked (name : option string) (left : Z) (v : Verb)
    (h : Handler) (argv : Argv) (userdata : Userdata) (w w1 : World) :
  let n := match name with Some _ => left | None => 1 end in
  skip_offline v w = Ok false w1 ->
  (has_flag v VERB_MUST_BE_ROOT = true -> 0 <= root_check w1) ->
  run_verb name n v h argv userdata w =
  call h n (handler_argv name v argv (optind w1)) userdata w1.
Proof.
  intros n Hs Hr. unfold run_verb, bind. rewrite Hs.
  unfold check_root.
  destruct (has_flag v VERB_MUST_BE_ROOT).
  - unfold must_be_root. specialize (Hr eq_refl).
    apply Z.ltb_ge in Hr. rewrite Hr. now destruct name.
  - unfold ret. simpl. now destruct name.
Qed.

(** ** The dispatcher *)

Lemma argv_from_head (argv : Argv) (i : Z) (p : option string) :
  argv_at argv i = Some p -> hd_error (argv_from argv i) = Some p.
Proof.
  unfold argv_at, argv_from. destruct (i <? 0); [discriminate|].
  generalize (Z.to_nat i) as k. clear i.
  intros k; revert argv.
  induction k as [|k IH]; intros [|a argv]; simpl; try discriminate; auto.
Qed.

Lemma passed_named (n : string) (pre : list Verb) :
  Forall (fun u => dispatch u <> None /\ verb u <> n) pre ->
  passed (Some n) pre.
Proof.
  unfold passed. apply Forall_impl. intros u [Hu Hn]. split; [exact Hu|].
  simpl. apply streq_false. congruence.
Qed.

Lemma passed_default (pre : list Verb) :
  Forall (fun u => dispatch u <> None /\ has_flag u VERB_DEFAULT = false) pre ->
  passed None pre.
Proof. unfold passed. apply Forall_impl. now intros u [Hu Hn]. Qed.

(** Past the argument count, a matched entry is run. *)
Lemma dispatch_verb_run (argc : Z) (argv : Argv) (userdata : Userdata)
    (w : World) (name : option string) (pre post : list Verb) (v : Verb)
    (h : Handler) :
  Matched argc argv w name pre v h ->
  min_ok v (effective_left name argc (optind w)) ->
  max_ok v (effective_left name argc (optind w)) ->
  dispatch_verb argc argv (pre ++ v :: post) userdata w =
  run_verb name (effective_left name argc (optind w)) v h argv userdata w.
Proof.
  intros Hm Hmin Hmax.
  rewrite (dispatch_verb_matched _ _ _ _ _ _ _ _ _ Hm).
  apply check_verb_ok; auto.
  exact (matched_left_range _ _ _ _ _ _ _ Hm).
Qed.

(** Past the gates, the handler of a matched entry is called. *)
Lemma dispatch_verb_invoked (argc : Z) (argv : Argv) (userdata : Userdata)
    (w w1 : World) (name : option string) (pre post : list Verb) (v : Verb)
    (h : Handler) :
  Matched argc argv w name pre v h ->
  min_ok v (effective_left name argc (optind w)) ->
  max_ok v (effective_left name argc (optind w)) ->
  skip_offline v w = Ok false w1 ->
  (has_flag v VERB_MUST_BE_ROOT = true -> 0 <= root_check w1) ->
  dispatch_verb argc argv (pre ++ v :: post) userdata w =
  call h (effective_left name argc (optind w))
    (handler_argv name v argv (optind w)) userdata w1.
Proof.
  intros Hm Hmin Hmax Hs Hr.
  rewrite (dispatch_verb_run _ _ _ _ _ _ _ _ _ Hm Hmin Hmax).
  destruct (skip_offline_inv _ _ _ _ Hs) as (_ & Hoi & _).
  pose proof (run_verb_invoked name (effective_left name argc (optind w)) v h
                argv userdata w w1) as R.
  rewrite Hoi in R.
  destruct name; now apply R.
Qed.

(** C1 (amended). On a table whose first entry named [n] is [v], with
    handler [h], an invocation whose [argv[optind]] is [n] reaches the call
    of [h] once the argument count [argc - optind] is within the bounds of
    [v], the online-only gate does not skip and the privilege check, if
    [v] asks for one, succeeds. The call is [h(argc - optind, argv + optind,
    userdata)], its argument vector starts at the verb token, and the
    result of [dispatch_verb] is the result of that call. *)
Theorem dispatch_verb_named (argc : Z) (argv : Argv) (userdata : Userdata)
    (w w1 : World) (n : string) (pre post : list Verb) (v : Verb)
    (h : Handler) :
  0 <= argc <= INT_MAX -> optind w <= argc ->
  argv_at argv (optind w) = Some (Some n) ->
  Forall (fun u => dispatch u <> None /\ verb u <> n) pre ->
  verb v = n -> dispatch v = Some h ->
  min_ok v (argc - optind w) -> max_ok v (argc - optind w) ->
  skip_offline v w = Ok false w1 ->
  (has_flag v VERB_MUST_BE_ROOT = true -> 0 <= root_check w1) ->
  dispatch_verb argc argv (pre ++ v :: post) userdata w =
  invoke h (argc - optind w) (argv_from argv (optind w)) userdata
    (emit (EvCall h (argc - optind w) (argv_from argv (optind w))) w1) /\
  hd_error (argv_from argv (optind w)) = Some (Some n).
Proof.
  intros Hargc Hoi Hname Hpre Hv Hh Hmin Hmax Hs Hr.
  split; [|now apply argv_from_head].
  assert (Matched argc argv w (Some n) pre v h) as Hm.
  { constructor; auto using passed_named.
    simpl. apply streq_true. congruence. }
  exact (dispatch_verb_invoked _ _ userdata _ _ _ _ post _ _ Hm Hmin Hmax Hs Hr).
Qed.

(** C2 (amended). On a table whose first entry flagged as the default is
    [v], with handler [h], an invocation without a verb ([argv[optind]] is
    the terminating [NULL]) reaches the call of [h] once the count [1] is
    within the bounds of [v], the online-only gate does not skip and the
    privilege check, if [v] asks for one, succeeds. The call is
    [h(1, fake, userdata)] where [fake] holds the name of [v] and the
    terminating [NULL], not the original vector. *)
Theorem dispatch_verb_default (argc : Z) (argv : Argv) (userdata : Userdata)
    (w w1 : World) (pre post : list Verb) (v : Verb) (h : Handler) :
  0 <= argc <= INT_MAX -> optind w <= argc ->
  argv_at argv (optind w) = Some None ->
  Forall (fun u => dispatch u <> None /\ has_flag u VERB_DEFAULT = false) pre ->
  has_flag v VERB_DEFAULT = true -> dispatch v = Some h ->
  min_ok v 1 -> max_ok v 1 ->
  skip_offline v w = Ok false w1 ->
  (has_flag v VERB_MUST_BE_ROOT = true -> 0 <= root_check w1) ->
  dispatch_verb argc argv (pre ++ v :: post) userdata w =
  invoke h 1 [Some (verb v); None] userdata
    (emit (EvCall h 1 [Some (verb v); None]) w1).
Proof.
  intros Hargc Hoi Hname Hpre Hv Hh Hmin Hmax Hs Hr.
  assert (Matched argc argv w None pre v h) as Hm.
  { constructor; auto using passed_default. }
  exact (dispatch_verb_invoked _ _ userdata _ _ _ _ post _ _ Hm Hmin Hmax Hs Hr).
Qed.

(** The two rejections of the argument-count check. *)
Lemma dispatch_verb_too_few (argc : Z) (argv : Argv) (userdata : Userdata)
    (w : World) (name : option string) (pre post : list Verb) (v : Verb)
    (h : Handler) :
  Matched argc argv w name pre v h ->
  min_args v <> VERB_ANY ->
  effective_left name argc (optind w) < min_args v ->
  dispatch_verb argc argv (pre ++ v :: post) userdata w =
  Ok (- EINVAL) (emit (EvLog LOG_ERR 0 "Too few arguments.") w).
Proof.
  intros Hm Hany Hlt.
  rewrite (dispatch_verb_matched _ _ _ _ _ _ post _ _ Hm).
  apply check_verb_too_few; auto.
  exact (matched_left_range _ _ _ _ _ _ _ Hm).
Qed.

Lemma dispatch_verb_too_many (argc : Z) (argv : Argv) (userdata : Userdata)
    (w : World) (name : option string) (pre post : list Verb) (v : Verb)
    (h : Handler) :
  Matched argc argv w name pre v h ->
  min_ok v (effective_left name argc (optind w)) ->
  max_args v <> VERB_ANY ->
  max_args v < effective_left name argc (optind w) ->
  dispatch_verb argc argv (pre ++ v :: post) userdata w =
  Ok (- EINVAL) (emit (EvLog LOG_ERR 0 "Too many arguments.") w).
Proof.
  intros Hm Hmin Hany Hgt.
  rewrite (dispatch_verb_matched _ _ _ _ _ _ post _ _ Hm).
  apply check_verb_too_many; auto.
  exact (matched_left_range _ _ _ _ _ _ _ Hm).
Qed.

(** C3. For the entry [v] an invocation selects and the argument count [n]
    it is checked against: a lower bound other than [VERB_ANY] with [n]
    below it gives [-EINVAL] after the diagnostic [Too few arguments.],
    whatever the upper bound (the lower bound is checked first); with the
    lower bound passed, an upper bound other than [VERB_ANY] with [n] above
    it gives [-EINVAL] after [Too many arguments.]; a bound equal to
    [VERB_ANY] rejects no count. In both error cases the final state is the
    initial one with the diagnostic added: no handler is called. *)
Theorem dispatch_verb_argument_count (argc : Z) (argv : Argv)
    (userdata : Userdata) (w : World) (name : option string)
    (pre post : list Verb) (v : Verb) (h : Handler) :
  Matched argc argv w name pre v h ->
  let n := effective_left name argc (optind w) in
  let run := dispatch_verb argc argv (pre ++ v :: post) userdata w in
  (min_args v <> VERB_ANY -> n < min_args v ->
   run = Ok (- EINVAL) (emit (EvLog LOG_ERR 0 "Too few arguments.") w) /\
   calls (emit (EvLog LOG_ERR 0 "Too few arguments.") w) = calls w) /\
  ((min_args v = VERB_ANY \/ min_args v <= n) ->
   max_args v <> VERB_ANY -> max_args v < n ->
   run = Ok (- EINVAL) (emit (EvLog LOG_ERR 0 "Too many arguments.") w) /\
   calls (emit (EvLog LOG_ERR 0 "Too many arguments.") w) = calls w) /\
  (min_args v = VERB_ANY ->
   (max_args v = VERB_ANY \/ n <= max_args v) ->
   run = run_verb name n v h argv userdata w) /\
  (max_args v = VERB_ANY ->
   (min_args v = VERB_ANY \/ min_args v <= n) ->
   run = run_verb name n v h argv userdata w).
Proof.
  intros Hm n run. unfold run, n.
  repeat split.
  - now apply (dispatch_verb_too_few _ _ _ _ name _ _ _ h).
  - apply calls_emit_log.
  - now apply (dispatch_verb_too_many _ _ _ _ name _ _ _ h).
  - apply calls_emit_log.
  - intros Hany Hmax. apply dispatch_verb_run; auto. now left.
  - intros Hany Hmin. apply dispatch_verb_run; auto. now left.
Qed.

(** All the predicate adds to the trace is logged at debug level. *)
Lemma running_in_chroot_or_offline_trace (w w' : World) (b : bool) :
  running_in_chroot_or_offline w = Ok b w' ->
  exists dbg, trace w' = trace w ++ dbg /\ forallb is_debug_log dbg = true.
Proof.
  unfold running_in_chroot_or_offline; unfold_c.
  destruct (env_bool w "SYSTEMD_OFFLINE" <? 0).
  - simpl. destruct (chroot_probe w <? 0).
    + intros H; inversion H; subst; simpl.
      rewrite <- app_assoc. eexists; split; [reflexivity|reflexivity].
    + destruct (chroot_probe w >? 0); intros H; inversion H; subst; simpl;
        (eexists; split; [reflexivity|reflexivity]).
  - destruct (env_bool w "SYSTEMD_OFFLINE" =? 0); intros H; inversion H; subst;
      exists []; now rewrite app_nil_r.
Qed.

Lemma bounds_dec (v : Verb) (n : Z) :
  (min_args v <> VERB_ANY /\ n < min_args v) \/
  (min_ok v n /\ max_args v <> VERB_ANY /\ max_args v < n) \/
  (min_ok v n /\ max_ok v n).
Proof.
  unfold min_ok, max_ok.
  destruct (Z.eq_dec (min_args v) VERB_ANY), (Z.eq_dec (max_args v) VERB_ANY),
    (Z_lt_le_dec n (min_args v)), (Z_lt_le_dec (max_args v) n); auto 6.
Qed.

(** When the predicate answers true it has logged the failed parse of
    [SYSTEMD_OFFLINE], if the variable gave no value, and nothing else. *)
Lemma running_in_chroot_or_offline_true (w w1 : World) :
  running_in_chroot_or_offline w = Ok true w1 ->
  w1 = if env_bool w "SYSTEMD_OFFLINE" <? 0
       then emit (EvLog LOG_DEBUG (env_bool w "SYSTEMD_OFFLINE")
                    "Parsing SYSTEMD_OFFLINE: %m") w
       else w.
Proof.
  unfold running_in_chroot_or_offline; unfold_c.
  destruct (env_bool w "SYSTEMD_OFFLINE" <? 0).
  - cbv beta iota. rewrite !chroot_probe_emit.
    destruct (chroot_probe w <? 0); [discriminate|].
    destruct (chroot_probe w >? 0); [|discriminate].
    intros H. now inversion H.
  - destruct (env_bool w "SYSTEMD_OFFLINE" =? 0); [discriminate|].
    intros H. now inversion H.
Qed.

(** C4 (amended). For a matched entry flagged online-only, when
    [running_in_chroot_or_offline] answers true (leaving the state [w1]):
    with the argument count within the bounds of the entry,
    [dispatch_verb] returns [0], the value of success, and calls no
    handler; what it adds to the trace is the notice, logged at info
    level, and before it the one debug line of the predicate when
    [SYSTEMD_OFFLINE] is unset or does not parse, nothing when it parses
    to true. With the count outside the bounds the outcome is the error
    [-EINVAL] of the argument-count check, which comes first. *)
Theorem dispatch_verb_offline_skip (argc : Z) (argv : Argv)
    (userdata : Userdata) (w w1 : World) (name : option string)
    (pre post : list Verb) (v : Verb) (h : Handler) :
  Matched argc argv w name pre v h ->
  has_flag v VERB_ONLINE_ONLY = true ->
  running_in_chroot_or_offline w = Ok true w1 ->
  let n := effective_left name argc (optind w) in
  let run := dispatch_verb argc argv (pre ++ v :: post) userdata w in
  let r := env_bool w "SYSTEMD_OFFLINE" in
  (min_ok v n -> max_ok v n ->
   run = Ok 0 (emit (skip_notice name) w1) /\
   calls (emit (skip_notice name) w1) = calls w /\
   trace (emit (skip_notice name) w1) =
   trace w ++
   (if r <? 0 then [EvLog LOG_DEBUG r "Parsing SYSTEMD_OFFLINE: %m"] else []) ++
   [skip_notice name]) /\
  (~ (min_ok v n /\ max_ok v n) ->
   exists msg, run = Ok (- EINVAL) (emit (EvLog LOG_ERR 0 msg) w)).
Proof.
  intros Hm Hf Hp n run r.
  assert (skip_offline v w = Ok true w1) as Hs
    by (unfold skip_offline; now rewrite Hf).
  split.
  - intros Hmin Hmax. unfold run.
    rewrite (dispatch_verb_run _ _ _ _ _ _ _ _ _ Hm Hmin Hmax).
    rewrite (run_verb_skipped _ _ _ _ _ _ _ _ Hs).
    split; [reflexivity|]. split.
    + destruct (skip_offline_inv _ _ _ _ Hs) as (Hc & _).
      unfold skip_notice. destruct name; now rewrite calls_emit_log.
    + rewrite (running_in_chroot_or_offline_true _ _ Hp). fold r.
      destruct (r <? 0); simpl; [|reflexivity].
      now rewrite <- app_assoc.
  - intros Hno.
    destruct (bounds_dec v n) as [[Ha Hb]|[(Hmin & Ha & Hb)|Hok]].
    + eexists. exact (dispatch_verb_too_few _ _ _ _ _ _ post _ _ Hm Ha Hb).
    + eexists. exact (dispatch_verb_too_many _ _ _ _ _ _ post _ _ Hm Hmin Ha Hb).
    + contradiction.
Qed.

(** C5. For a matched entry flagged as requiring root, when the argument
    count is within bounds and the online-only gate does not skip (leaving
    the state [w1]), a negative result of [must_be_root] is what
    [dispatch_verb] returns, in the state [w1] as it is: no handler is
    called. *)
Theorem dispatch_verb_privilege_denied (argc : Z) (argv : Argv)
    (userdata : Userdata) (w w1 : World) (name : option string)
    (pre post : list Verb) (v : Verb) (h : Handler) :
  Matched argc argv w name pre v h ->
  min_ok v (effective_left name argc (optind w)) ->
  max_ok v (effective_left name argc (optind w)) ->
  skip_offline v w = Ok false w1 ->
  has_flag v VERB_MUST_BE_ROOT = true ->
  root_check w < 0 ->
  dispatch_verb argc argv (pre ++ v :: post) userdata w =
  Ok (root_check w) w1 /\
  calls w1 = calls w.
Proof.
  intros Hm Hmin Hmax Hs Hf Hr.
  destruct (skip_offline_inv _ _ _ _ Hs) as (Hc & _ & Hrc).
  rewrite (dispatch_verb_run _ _ _ _ _ _ _ _ _ Hm Hmin Hmax).
  rewrite <- Hrc in *.
  split; [|exact Hc].
  now apply run_verb_denied.
Qed.

(** C6. When the scan passes over entries that all have a handler and do
    not match, and reaches the terminator [t], [dispatch_verb] returns the
    error [-EINVAL] and the final state is the initial one with one error
    diagnostic added, so that no handler is called: [Unknown operation n.]
    when [argv[optind]] is the name [n] and no entry bears it,
    [Requires operation parameter.] when no name is given and no entry is
    flagged as the default. *)
Theorem dispatch_verb_lookup_failure (argc : Z) (argv : Argv)
    (userdata : Userdata) (w : World) (name : option string)
    (pre post : list Verb) (t : Verb) :
  0 <= argc <= INT_MAX -> optind w <= argc ->
  argv_at argv (optind w) = Some name ->
  pre <> [] -> dispatch t = None ->
  let run := dispatch_verb argc argv (pre ++ t :: post) userdata w in
  (forall n, name = Some n ->
     Forall (fun u => dispatch u <> None /\ verb u <> n) pre ->
     run = Ok (- EINVAL)
             (emit (EvLog LOG_ERR 0 ("Unknown operation " ++ n ++ ".")%string) w)) /\
  (name = None ->
     Forall (fun u => dispatch u <> None /\ has_flag u VERB_DEFAULT = false) pre ->
     run = Ok (- EINVAL)
             (emit (EvLog LOG_ERR 0 "Requires operation parameter.") w)) /\
  - EINVAL < 0.
Proof.
  intros Hargc Hoi Hname Hne Ht run.
  assert (forall u0 pre0, pre = u0 :: pre0 -> passed name pre ->
            run = Ok (- EINVAL) (emit (lookup_failure name) w)) as Hrun.
  { intros u0 pre0 -> Hpre. unfold run.
    rewrite (dispatch_verb_prelude argc argv _ userdata w name u0
               (pre0 ++ t :: post)); auto.
    - now rewrite (find_verb_end name (u0 :: pre0) post t w).
    - inversion Hpre as [|? ? [Hu _] _]. exact Hu. }
  destruct pre as [|u0 pre0]; [contradiction|].
  repeat split.
  - intros n -> Hpre. apply (Hrun u0 pre0 eq_refl). now apply passed_named.
  - intros -> Hpre. apply (Hrun u0 pre0 eq_refl). now apply passed_default.
Qed.

(** C7 (amended). The error code does not tell the kinds of the taxonomy
    apart: an invocation that fails as UnknownVerb, MissingVerb,
    TooFewArguments or TooManyArguments returns the one code [-EINVAL],
    and one that fails as PermissionDenied returns the negative result of
    [must_be_root]. In every case no handler is called. *)
Theorem dispatch_verb_error_code (argc : Z) (argv : Argv)
    (userdata : Userdata) (w : World) (verbs : list Verb) (k : ErrorKind) :
  Fails argc argv w verbs k ->
  exists w',
    dispatch_verb argc argv verbs userdata w =
    Ok (match k with
        | PermissionDenied => root_check w
        | UnknownVerb | MissingVerb | TooFewArguments | TooManyArguments =>
            - EINVAL
        end) w' /\
    calls w' = calls w.
Proof.
  intros HF.
  destruct HF as [n pre post t Hargc Hoi Hname Hne Ht Hpre
                 |pre post t Hargc Hoi Hname Hne Ht Hpre
                 |name pre post v h Hm Hany Hlt
                 |name pre post v h Hm Hmin Hany Hgt
                 |name pre post v h w1 Hm Hmin Hmax Hs Hf Hr].
  - destruct pre as [|u0 pre0]; [contradiction|].
    eexists; split; [|apply calls_emit_log].
    rewrite (dispatch_verb_prelude argc argv _ userdata w (Some n) u0
               (pre0 ++ t :: post)); auto.
    + now rewrite (find_verb_end (Some n) (u0 :: pre0) post t w)
        by auto using passed_named.
    + inversion Hpre as [|? ? [Hu _] _]. exact Hu.
  - destruct pre as [|u0 pre0]; [contradiction|].
    eexists; split; [|apply calls_emit_log].
    rewrite (dispatch_verb_prelude argc argv _ userdata w None u0
               (pre0 ++ t :: post)); auto.
    + now rewrite (find_verb_end None (u0 :: pre0) post t w)
        by auto using passed_default.
    + inversion Hpre as [|? ? [Hu _] _]. exact Hu.
  - eexists; split; [|apply calls_emit_log].
    now apply (dispatch_verb_too_few _ _ _ _ name _ _ _ h).
  - eexists; split; [|apply calls_emit_log].
    now apply (dispatch_verb_too_many _ _ _ _ name _ _ _ h).
  - destruct (skip_offline_inv _ _ _ _ Hs) as (Hc & _ & Hrc).
    exists w1; split; [|exact Hc].
    rewrite (dispatch_verb_run _ _ _ _ _ _ _ _ _ Hm Hmin Hmax).
    rewrite <- Hrc in *. now apply run_verb_denied.
Qed.

(** ** The restricted-environment predicate *)

(** C8. [running_in_chroot_or_offline] answers true when [SYSTEMD_OFFLINE]
    parses to true and false when it parses to false, in both cases
    without a look at the probe or a line of log. When the variable is
    unset or does not parse ([getenv_bool] fails) the failure is logged at
    debug level and the answer is that of [running_in_chroot]: true
    exactly when the probe reports a chroot. *)
Theorem running_in_chroot_or_offline_override (w : World) :
  let r := env_bool w "SYSTEMD_OFFLINE" in
  let w1 := emit (EvLog LOG_DEBUG r "Parsing SYSTEMD_OFFLINE: %m") w in
  (0 < r -> running_in_chroot_or_offline w = Ok true w) /\
  (r = 0 -> running_in_chroot_or_offline w = Ok false w) /\
  (r < 0 ->
   exists b w',
     running_in_chroot_or_offline w = Ok b w' /\
     (b = true <-> 0 < chroot_probe w) /\
     exists rest, trace w' = trace w1 ++ rest).
Proof.
  intros r w1.
  unfold running_in_chroot_or_offline; unfold_c. fold r.
  repeat split.
  - intros Hr. destruct (r <? 0) eqn:E1; [apply Z.ltb_lt in E1; lia|].
    destruct (r =? 0) eqn:E2; [apply Z.eqb_eq in E2; lia|]. reflexivity.
  - intros ->. reflexivity.
  - intros Hr. apply Z.ltb_lt in Hr. rewrite Hr. cbv beta iota.
    rewrite !chroot_probe_emit. fold w1.
    destruct (chroot_probe w <? 0) eqn:E1.
    + apply Z.ltb_lt in E1. eexists _, _; split; [reflexivity|]. split.
      * split; [discriminate|lia].
      * eexists. reflexivity.
    + apply Z.ltb_ge in E1. rewrite Z.gtb_ltb.
      destruct (0 <? chroot_probe w) eqn:E2.
      * apply Z.ltb_lt in E2. eexists _, _; split; [reflexivity|]. split.
        -- tauto.
        -- exists []. now rewrite app_nil_r.
      * apply Z.ltb_ge in E2. eexists _, _; split; [reflexivity|]. split.
        -- split; [discriminate|lia].
        -- exists []. now rewrite app_nil_r.
Qed.

(** C10. When [SYSTEMD_OFFLINE] gives no value and [running_in_chroot]
    itself fails, [running_in_chroot_or_offline] logs both errors at debug
    level and answers false; [dispatch_verb] then goes on to call the
    handler of a matched online-only entry (its argument count within
    bounds, its privilege check, if any, passed). *)
Theorem running_in_chroot_or_offline_probe_error (w : World) :
  env_bool w "SYSTEMD_OFFLINE" < 0 -> chroot_probe w < 0 ->
  let w2 :=
    emit (EvLog LOG_DEBUG (chroot_probe w) "running_in_chroot(): %m")
      (emit (EvLog LOG_DEBUG (env_bool w "SYSTEMD_OFFLINE")
               "Parsing SYSTEMD_OFFLINE: %m") w) in
  running_in_chroot_or_offline w = Ok false w2 /\
  forall argc argv userdata name pre post v h,
    Matched argc argv w name pre v h ->
    has_flag v VERB_ONLINE_ONLY = true ->
    min_ok v (effective_left name argc (optind w)) ->
    max_ok v (effective_left name argc (optind w)) ->
    (has_flag v VERB_MUST_BE_ROOT = true -> 0 <= root_check w) ->
    dispatch_verb argc argv (pre ++ v :: post) userdata w =
    invoke h (effective_left name argc (optind w))
      (handler_argv name v argv (optind w)) userdata
      (emit (EvCall h (effective_left name argc (optind w))
               (handler_argv name v argv (optind w))) w2).
Proof.
  intros He Hp w2.
  assert (running_in_chroot_or_offline w = Ok false w2) as Hrun.
  { unfold running_in_chroot_or_offline; unfold_c.
    apply Z.ltb_lt in He, Hp. rewrite He. cbv beta iota.
    rewrite !chroot_probe_emit. now rewrite Hp. }
  split; [exact Hrun|].
  intros argc argv userdata name pre post v h Hm Hf Hmin Hmax Hr.
  apply (dispatch_verb_invoked _ _ userdata _ w2 _ _ post _ _ Hm Hmin Hmax).
  - unfold skip_offline. now rewrite Hf.
  - exact Hr.
Qed.

(** ** The read of the verb name *)

Lemma terminated_at_read (argv : Argv) (k i : nat) :
  forallb is_string (firstn k argv) = true ->
  nth_error argv k = Some None ->
  (i <= k)%nat ->
  exists p, nth_error argv i = Some p /\ (p = None <-> i = k).
Proof.
  intros Hall Hend Hik.
  destruct (Nat.eq_dec i k) as [->|Hne].
  - exists None. tauto.
  - assert (i < k)%nat as Hlt by lia.
    assert (nth_error (firstn k argv) i = nth_error argv i) as E.
    { rewrite nth_error_firstn. apply Nat.ltb_lt in Hlt. now rewrite Hlt. }
    destruct (nth_error argv i) as [p|] eqn:Ei.
    + exists p. split; [reflexivity|].
      apply nth_error_In in E.
      rewrite forallb_forall in Hall. specialize (Hall p E).
      destruct p; [|discriminate]. split; [discriminate|contradiction].
    + exfalso. apply nth_error_None in Ei.
      assert (nth_error argv k <> None) as Hk by congruence.
      apply nth_error_Some in Hk. lia.
Qed.

(** C9 (amended). With [argc >= 0], [0 <= optind <= argc] and an argument
    vector terminated at index [argc], the read of [argv[optind]] is
    inside the array, and it yields [NULL], the case of no verb given,
    exactly when [optind = argc]. On a table whose first entry has a
    handler, and with [argc] an [int], [dispatch_verb] then is the scan
    for what was read, followed by the checks. *)
Theorem dispatch_verb_reads_name (argc : Z) (argv : Argv) (v0 : Verb)
    (rest : list Verb) (userdata : Userdata) (w : World) :
  0 <= argc -> 0 <= optind w <= argc ->
  terminated_at argv argc = true ->
  exists p,
    argv_at argv (optind w) = Some p /\
    (p = None <-> optind w = argc) /\
    (argc <= INT_MAX -> dispatch v0 <> None ->
     dispatch_verb argc argv (v0 :: rest) userdata w =
     match find_verb p (v0 :: rest) w with
     | Ok (inl code) w' => Ok code w'
     | Ok (inr (v, h)) w' =>
         check_verb p (argc - optind w) v h argv userdata w'
     | Abort => Abort
     | Undef => Undef
     end).
Proof.
  intros Hargc Hoi Hterm.
  unfold terminated_at in Hterm. apply andb_true_iff in Hterm.
  destruct Hterm as [Hall Hend].
  destruct (nth_error argv (Z.to_nat argc)) as [[s|]|] eqn:Ek;
    try discriminate.
  destruct (terminated_at_read argv (Z.to_nat argc) (Z.to_nat (optind w))
              Hall Ek) as (p & Hp & Hiff); [lia|].
  assert (argv_at argv (optind w) = Some p) as Hread.
  { unfold argv_at. destruct (optind w <? 0) eqn:E; [|exact Hp].
    apply Z.ltb_lt in E. lia. }
  exists p. split; [exact Hread|]. split.
  - rewrite Hiff. split; [intros E; apply Z2Nat.inj in E; lia|now intros ->].
  - intros Hmax Hv0.
    apply (dispatch_verb_prelude argc argv _ userdata w p v0 rest); auto; lia.
Qed.

(** ** The scan of the table, read backwards *)

(** What each outcome of the scan says of the table. *)
Lemma find_verb_cases (name : option string) (verbs : list Verb) (w : World) :
  match find_verb name verbs w with
  | Ok (inr (v, h)) w' =>
      w' = w /\
      exists pre post,
        verbs = pre ++ v :: post /\ passed name pre /\
        found name v = true /\ dispatch v = Some h
  | Ok (inl code) w' =>
      code = - EINVAL /\ w' = emit (lookup_failure name) w /\
      exists pre t post,
        verbs = pre ++ t :: post /\ passed name pre /\ dispatch t = None
  | Abort => False
  | Undef => passed name verbs
  end.
Proof.
  induction verbs as [|u verbs IH]; simpl.
  - constructor.
  - destruct (dispatch u) as [hu|] eqn:Eu.
    + destruct (found name u) eqn:Ef.
      * unfold ret. split; [reflexivity|].
        exists [], verbs. repeat split; auto. constructor.
      * assert (dispatch u <> None /\ found name u = false) as Hu
          by (split; congruence).
        destruct (find_verb name verbs w) as [[c|[v h]] w'| |]; auto.
        -- destruct IH as (Hc & Hw & pre & t & post & E & Hpre & Ht).
           split; [exact Hc|]. split; [exact Hw|].
           exists (u :: pre), t, post. subst verbs.
           repeat split; auto. now constructor.
        -- destruct IH as (Hw & pre & post & E & Hpre & Hf & Hh).
           split; [exact Hw|].
           exists (u :: pre), post. subst verbs.
           repeat split; auto. now constructor.
        -- now constructor.
    + unfold bind, ret.
      assert (exists pre t post,
                u :: verbs = pre ++ t :: post /\ passed name pre /\
                dispatch t = None) as Hex.
      { exists [], u, verbs. repeat split; auto. constructor. }
      destruct name; simpl; auto.
Qed.

Lemma find_verb_unterminated (name : option string) (verbs : list Verb)
    (w : World) :
  passed name verbs -> find_verb name verbs w = Undef.
Proof.
  intros Hpre.
  induction Hpre as [|u pre [Hu Hnf] _ IH]; simpl.
  - reflexivity.
  - destruct (dispatch u); [|contradiction]. now rewrite Hnf.
Qed.

Lemma passed_no_terminator (name : option string) (verbs : list Verb) :
  passed name verbs -> has_terminator verbs = false.
Proof.
  intros Hpre.
  induction Hpre as [|u pre [Hu _] _ IH]; simpl.
  - reflexivity.
  - unfold has_terminator in IH. unfold is_terminator at 1.
    destruct (dispatch u); [exact IH|contradiction].
Qed.

(** X1. An entry the scan returns is an entry of the table that has the
    handler returned and matches what was looked for, all entries before
    it have a handler and do not match, and the scan logs nothing; a scan
    that leaves the function returns [-EINVAL], after the one diagnostic of
    the failed lookup, and has met a terminator before any match. The scan
    fails no assertion. *)
Theorem find_verb_inversion (name : option string) (verbs : list Verb)
    (w : World) :
  (forall v h w',
     find_verb name verbs w = Ok (inr (v, h)) w' ->
     w' = w /\ In v verbs /\
     exists pre post,
       verbs = pre ++ v :: post /\ passed name pre /\
       found name v = true /\ dispatch v = Some h) /\
  (forall code w',
     find_verb name verbs w = Ok (inl code) w' ->
     code = - EINVAL /\ w' = emit (lookup_failure name) w /\
     exists pre t post,
       verbs = pre ++ t :: post /\ passed name pre /\ dispatch t = None) /\
  find_verb name verbs w <> Abort.
Proof.
  clear invoke.
  pose proof (find_verb_cases name verbs w) as H.
  repeat split.
  - rewrite H0 in H. tauto.
  - rewrite H0 in H. destruct H as (_ & pre & post & E & _).
    subst verbs. apply in_or_app. right. now left.
  - rewrite H0 in H. tauto.
  - rewrite H0 in H. tauto.
  - rewrite H0 in H. tauto.
  - rewrite H0 in H. tauto.
  - intros E. now rewrite E in H.
Qed.

(** X2. The scan runs past the end of the table exactly when every entry
    has a handler and none matches: a table without its terminator is safe
    for the verbs it knows and read out of bounds for any other, and a
    table with its terminator is never read past its end. *)
Theorem find_verb_out_of_bounds (name : option string) (verbs : list Verb)
    (w : World) :
  (find_verb name verbs w = Undef <-> passed name verbs) /\
  (has_terminator verbs = true -> find_verb name verbs w <> Undef).
Proof.
  assert (find_verb name verbs w = Undef -> passed name verbs) as Hu.
  { intros E. pose proof (find_verb_cases name verbs w) as H.
    now rewrite E in H. }
  split; [split; [exact Hu|apply find_verb_unterminated]|].
  intros Ht E. apply Hu, passed_no_terminator in E. congruence.
Qed.

(** ** What the outcome depends on *)

Lemma find_verb_prefix (name : option string) (pre post post' : list Verb)
    (e : Verb) (w : World) :
  passed name pre -> (dispatch e = None \/ found name e = true) ->
  find_verb name (pre ++ e :: post) w = find_verb name (pre ++ e :: post') w.
Proof.
  intros Hpre He.
  induction Hpre as [|u pre [Hu Hnf] _ IH]; simpl.
  - destruct (dispatch e) as [h|]; [|reflexivity].
    destruct He as [He|He]; [discriminate|]. now rewrite He.
  - destruct (dispatch u); [|contradiction]. now rewrite Hnf.
Qed.

Lemma dispatch_verb_congr (argc : Z) (argv : Argv) (verbs verbs' : list Verb)
    (userdata : Userdata) (w : World) :
  hd_error verbs = hd_error verbs' ->
  (forall name, argv_at argv (optind w) = Some name ->
                find_verb name verbs w = find_verb name verbs' w) ->
  dispatch_verb argc argv verbs userdata w =
  dispatch_verb argc argv verbs' userdata w.
Proof.
  intros Hhd Hfind. unfold dispatch_verb; unfold_c.
  destruct verbs as [|v0 rest], verbs' as [|v0' rest']; simpl in Hhd;
    try discriminate; [reflexivity|].
  injection Hhd as <-.
  destruct (dispatch v0); [|reflexivity].
  destruct (argc >=? 0); [|reflexivity].
  destruct (argc >=? optind w); [|reflexivity].
  destruct ((INT_MIN <=? argc - optind w) && (argc - optind w <=? INT_MAX));
    [|reflexivity].
  destruct (argv_at argv (optind w)) as [name|] eqn:En; [|reflexivity].
  unfold ret. cbv beta iota. now rewrite (Hfind name eq_refl).
Qed.

(** X3. [dispatch_verb] reads the table no further than the first entry
    that matches or ends it: what follows that entry, be it more verbs, a
    second entry of the same name or nothing at all, does not change the
    outcome. *)
Theorem dispatch_verb_prefix (argc : Z) (argv : Argv) (userdata : Userdata)
    (w : World) (name : option string) (pre post post' : list Verb)
    (e : Verb) :
  argv_at argv (optind w) = Some name ->
  passed name pre -> (dispatch e = None \/ found name e = true) ->
  dispatch_verb argc argv (pre ++ e :: post) userdata w =
  dispatch_verb argc argv (pre ++ e :: post') userdata w.
Proof.
  intros Hname Hpre He.
  apply dispatch_verb_congr.
  - now destruct pre.
  - intros name' Hname'. rewrite Hname in Hname'. injection Hname' as <-.
    now apply find_verb_prefix.
Qed.

Lemma dispatch_verb_null_first (argc : Z) (argv : Argv) (v0 : Verb)
    (rest : list Verb) (userdata : Userdata) (w : World) :
  dispatch v0 = None ->
  dispatch_verb argc argv (v0 :: rest) userdata w = Abort.
Proof.
  intros H. unfold dispatch_verb; unfold_c. now rewrite H.
Qed.

(** X5. When no verb is given ([argv[optind]] is [NULL]) the outcome
    depends neither on the argument vector nor on [argc]: the count is set
    to [1] and the handler is given a vector of its own. *)
Theorem dispatch_verb_default_ignores_argv (argc argc' : Z)
    (argv argv' : Argv) (verbs : list Verb) (userdata : Userdata)
    (w : World) :
  0 <= argc <= INT_MAX -> 0 <= argc' <= INT_MAX ->
  optind w <= argc -> optind w <= argc' ->
  argv_at argv (optind w) = Some None ->
  argv_at argv' (optind w) = Some None ->
  dispatch_verb argc argv verbs userdata w =
  dispatch_verb argc' argv' verbs userdata w.
Proof.
  intros Hargc Hargc' Hoi Hoi' Hname Hname'.
  destruct verbs as [|v0 rest]; [reflexivity|].
  destruct (dispatch v0) as [h0|] eqn:E0.
  - assert (dispatch v0 <> None) as Hv0 by congruence.
    rewrite (dispatch_verb_prelude argc argv _ userdata w None v0 rest)
      by auto.
    rewrite (dispatch_verb_prelude argc' argv' _ userdata w None v0 rest)
      by auto.
    destruct (find_verb None (v0 :: rest) w) as [[c|[v h]] w'| |];
      reflexivity.
  - now rewrite !dispatch_verb_null_first.
Qed.

(** ** What the dispatcher leaves untouched *)

Lemma emits_snoc (evs : list Event) (e : Event) (w : World) :
  emits (evs ++ [e]) w = emit e (emits evs w).
Proof. unfold emits. now rewrite fold_left_app. Qed.


Lemma calls_emits_debug (dbg : list Event) (w : World) :
  forallb is_debug_log dbg = true -> calls (emits dbg w) = calls w.
Proof.
  revert w. induction dbg as [|e dbg IH]; intros w; simpl; [reflexivity|].
  intros H. apply andb_true_iff in H. destruct H as [He Hd].
  rewrite (IH _ Hd).
  destruct e as [lvl r msg|h n a]; [apply calls_emit_log|discriminate].
Qed.



(** X6. [running_in_chroot_or_offline] always answers, and all it does to
    the state is to add lines of debug level to the log, two at most and
    none exactly when [SYSTEMD_OFFLINE] parses: it calls no handler and
    leaves [optind] and the environment as they are. *)
Theorem running_in_chroot_or_offline_frame (w : World) :
  exists b dbg,
    running_in_chroot_or_offline w = Ok b (emits dbg w) /\
    forallb is_debug_log dbg = true /\
    (List.length dbg <= 2)%nat /\
    (dbg = [] <-> 0 <= env_bool w "SYSTEMD_OFFLINE") /\
    calls (emits dbg w) = calls w /\
    optind (emits dbg w) = optind w.
Proof.
  assert (forall dbg, optind (emits dbg w) = optind w) as Hoi.
  { intros dbg. generalize w. induction dbg as [|e dbg IH]; intros w0; simpl;
      [reflexivity|now rewrite IH]. }
  unfold running_in_chroot_or_offline; unfold_c.
  destruct (env_bool w "SYSTEMD_OFFLINE" <? 0) eqn:E.
  - apply Z.ltb_lt in E. cbv beta iota. rewrite !chroot_probe_emit.
    destruct (chroot_probe w <? 0).
    + eexists _, [_; _]. split; [reflexivity|].
      split; [reflexivity|]. split; [simpl; lia|].
      split; [split; [discriminate|lia]|].
      split; [now apply calls_emits_debug|apply Hoi].
    + destruct (chroot_probe w >? 0); eexists _, [_];
        (split; [reflexivity|]); (split; [reflexivity|]);
        (split; [simpl; lia|]); (split; [split; [discriminate|lia]|]);
        (split; [now apply calls_emits_debug|apply Hoi]).
  - apply Z.ltb_ge in E.
    destruct (env_bool w "SYSTEMD_OFFLINE" =? 0); eexists _, [];
      (split; [reflexivity|]); (split; [reflexivity|]);
      (split; [simpl; lia|]); (split; [tauto|]); split; reflexivity.
Qed.

(** ** A well-formed invocation *)

Lemma terminated_argv_at (argv : Argv) (argc oi : Z) :
  0 <= oi <= argc -> terminated_at argv argc = true ->
  exists p, argv_at argv oi = Some p /\ (p = None <-> oi = argc).
Proof.
  intros Hoi Hterm.
  unfold terminated_at in Hterm. apply andb_true_iff in Hterm.
  destruct Hterm as [Hall Hend].
  destruct (nth_error argv (Z.to_nat argc)) as [[s|]|] eqn:Ek;
    try discriminate.
  destruct (terminated_at_read argv (Z.to_nat argc) (Z.to_nat oi) Hall Ek)
    as (p & Hp & Hiff); [lia|].
  exists p. split.
  - unfold argv_at. destruct (oi <? 0) eqn:E; [|exact Hp].
    apply Z.ltb_lt in E. lia.
  - rewrite Hiff. split; [intros E; apply Z2Nat.inj in E; lia|now intros ->].
Qed.


Lemma matched_count_pos (argc : Z) (argv : Argv) (w : World)
    (name : option string) (pre : list Verb) (v : Verb) (h : Handler) :
  Matched argc argv w name pre v h -> terminated_at argv argc = true ->
  0 <= optind w /\ 1 <= effective_left name argc (optind w).
Proof.
  intros [Hargc Hoi Hname _ _ _] Hterm.
  assert (0 <= optind w) as Hoi0.
  { unfold argv_at in Hname. destruct (optind w <? 0) eqn:E; [discriminate|].
    now apply Z.ltb_ge in E. }
  split; [exact Hoi0|].
  destruct (terminated_argv_at argv argc (optind w)) as (p & Hp & Hiff);
    auto.
  rewrite Hname in Hp. injection Hp as <-.
  destruct name as [s|]; simpl; [|lia].
  assert (optind w <> argc) by (intros E; apply Hiff in E; discriminate).
  lia.
Qed.



(** X9. The verb counts as an argument: on an invocation whose argument
    vector is terminated at [argc] the count checked is at least [1], so
    that a lower bound of [0] or [1] refuses nothing, as [VERB_ANY] does,
    and an entry with an upper bound of [0] is refused every time. *)
Theorem dispatch_verb_counts_verb (argc : Z) (argv : Argv)
    (userdata : Userdata) (w : World) (name : option string)
    (pre post : list Verb) (v : Verb) (h : Handler) :
  Matched argc argv w name pre v h ->
  terminated_at argv argc = true ->
  let n := effective_left name argc (optind w) in
  let run := dispatch_verb argc argv (pre ++ v :: post) userdata w in
  1 <= n /\
  (min_args v <= 1 -> max_ok v n ->
   run = run_verb name n v h argv userdata w) /\
  (min_ok v n -> max_args v <> VERB_ANY -> max_args v < 1 ->
   run = Ok (- EINVAL) (emit (EvLog LOG_ERR 0 "Too many arguments.") w)).
Proof.
  intros Hm Hterm n run.
  destruct (matched_count_pos _ _ _ _ _ _ _ Hm Hterm) as [_ Hn].
  fold n in Hn.
  split; [exact Hn|]. split.
  - intros Hmin Hmax. apply dispatch_verb_run; auto.
    right. fold n. lia.
  - intros Hmin Hany Hmax.
    apply (dispatch_verb_too_many _ _ _ _ name _ _ _ h); auto.
    fold n. lia.
Qed.

End Properties.

(** * The scenario of the specification *)


(** No verb: [H1] is called with [(1, {"status", NULL})]. *)
Example scenario_no_verb :
  let w := scenario_world 1 (-6) 0 0 in
  scenario_dispatch 1 argv_none w =
  Ok 101 (emit (EvCall H1 1 [Some "status"; None]) w).
Proof. reflexivity. Qed.

(** [restart now], online and as root: [H2] is called with
    [(2, {"restart", "now", NULL})], after the debug line for the unset
    variable. *)
Example scenario_restart_now :
  let w := scenario_world 1 (-6) 0 0 in
  scenario_dispatch 3 argv_restart_now w =
  Ok 102 (emit (EvCall H2 2 [Some "restart"; Some "now"; None])
            (emit (EvLog LOG_DEBUG (-6) "Parsing SYSTEMD_OFFLINE: %m") w)).
Proof. reflexivity. Qed.

(** [restart] in a chroot: success, [H2] is not called. *)
Example scenario_restart_in_chroot :
  let w := scenario_world 1 (-6) 1 0 in
  scenario_dispatch 2 argv_restart w =
  Ok 0 (emit (EvLog LOG_INFO 0 "Running in chroot, ignoring request: restart")
          (emit (EvLog LOG_DEBUG (-6) "Parsing SYSTEMD_OFFLINE: %m") w)).
Proof. reflexivity. Qed.

(** [restart now x]: one argument too many, [H2] is not called. *)
Example scenario_restart_now_x :
  let w := scenario_world 1 (-6) 0 0 in
  scenario_dispatch 4 argv_restart_now_x w =
  Ok (- EINVAL) (emit (EvLog LOG_ERR 0 "Too many arguments.") w).
Proof. reflexivity. Qed.

(** [restart] without privilege: the error of the privilege check. *)
Example scenario_restart_not_root :
  let w := scenario_world 1 0 0 (-1) in
  scenario_dispatch 2 argv_restart w = Ok (-1) w.
Proof. reflexivity. Qed.

(** An unknown verb. *)
Example scenario_frobnicate :
  let w := scenario_world 1 (-6) 0 0 in
  scenario_dispatch 2 argv_frobnicate w =
  Ok (- EINVAL) (emit (EvLog LOG_ERR 0 "Unknown operation frobnicate.") w).
Proof. reflexivity. Qed.

(** A table that starts with its terminator fails the assertion; one
    without a terminator is read past its end. *)
Example scenario_empty_table :
  dispatch_verb scenario_invoke 1 argv_none [verb_end] tt
    (scenario_world 1 (-6) 0 0) = Abort.
Proof. reflexivity. Qed.

Example scenario_unterminated_table :
  dispatch_verb scenario_invoke 2 argv_frobnicate [verb_status; verb_restart] tt
    (scenario_world 1 (-6) 0 0) = Undef.
Proof. reflexivity. Qed.

(** ** The hypotheses of the theorems, on these invocations *)

Lemma int_max_pos (n : Z) : 0 <= n <= 1000 -> 0 <= n <= INT_MAX.
Proof. unfold INT_MAX. lia. Defined.

Lemma scenario_restart_matched (argc : Z) (argv tl : Argv)
    (offline chroot root : Z) :
  1 <= argc <= 1000 ->
  argv = Some "tool" :: Some "restart" :: tl ->
  Matched argc argv (scenario_world 1 offline chroot root) (Some "restart")
    [verb_status] verb_restart H2.
Proof.
  intros Hargc ->. constructor; simpl; try reflexivity.
  - apply int_max_pos. lia.
  - lia.
  - constructor; [|constructor]. split; [discriminate|reflexivity].
Defined.

Lemma scenario_default_matched (offline chroot root : Z) :
  Matched 1 argv_none (scenario_world 1 offline chroot root) None
    [] verb_status H1.
Proof.
  constructor; simpl; try reflexivity.
  - apply int_max_pos. lia.
  - constructor.
Defined.

Lemma unit_enable_matched (argc : Z) (argv tl : Argv)
    (offline chroot root : Z) :
  1 <= argc <= 1000 ->
  argv = Some "tool" :: Some "enable" :: tl ->
  Matched argc argv (scenario_world 1 offline chroot root) (Some "enable")
    [verb_list] verb_enable H2.
Proof.
  intros Hargc ->. constructor; simpl; try reflexivity.
  - apply int_max_pos. lia.
  - lia.
  - constructor; [|constructor]. split; [discriminate|reflexivity].
Defined.

Lemma unit_list_matched (argc : Z) (argv tl : Argv)
    (offline chroot root : Z) :
  1 <= argc <= 1000 ->
  argv = Some "tool" :: Some "list" :: tl ->
  Matched argc argv (scenario_world 1 offline chroot root) (Some "list")
    [] verb_list H1.
Proof.
  intros Hargc ->. constructor; simpl; try reflexivity.
  - apply int_max_pos. lia.
  - lia.
  - constructor.
Defined.

Lemma unit_default_matched (offline chroot root : Z) :
  Matched 1 argv_none (scenario_world 1 offline chroot root) None
    [] verb_list H1.
Proof.
  constructor; simpl; try reflexivity.
  - apply int_max_pos. lia.
  - constructor.
Defined.

(** ** C1 *)

(** The theorem on [restart now], online and as root. *)
Lemma dispatch_verb_named_witness :
  let w := scenario_world 1 (-6) 0 0 in
  let w1 := emit (EvLog LOG_DEBUG (-6) "Parsing SYSTEMD_OFFLINE: %m") w in
  scenario_dispatch 3 argv_restart_now w =
  scenario_invoke H2 2 [Some "restart"; Some "now"; None] tt
    (emit (EvCall H2 2 [Some "restart"; Some "now"; None]) w1) /\
  hd_error (argv_from argv_restart_now 1) = Some (Some "restart").
Proof.
  intros w w1.
  apply (dispatch_verb_named scenario_invoke 3 argv_restart_now tt w w1
           "restart" [verb_status] [verb_end] verb_restart H2).
  - apply int_max_pos. lia.
  - simpl. lia.
  - reflexivity.
  - constructor; [|constructor]. split; discriminate.
  - reflexivity.
  - reflexivity.
  - right. simpl. lia.
  - right. simpl. lia.
  - reflexivity.
  - intros _. simpl. lia.
Defined.

(** C1 as stated fails at each of the three gates. The table is well
    formed and the name at [optind] is that of the entry [restart], yet on
    [restart now x] [dispatch_verb] returns [-EINVAL] with no call
    recorded, which is not the call of [H2] with [(3, argv + 1)]; on
    [restart] in a chroot it returns [0] and on [restart] without
    privilege the error of [must_be_root], again with no call recorded. *)
Lemma dispatch_verb_named_counterexample :
  let w := scenario_world 1 (-6) 0 0 in
  let slice := argv_from argv_restart_now_x 1 in
  dispatch verb_status <> None /\
  argv_at argv_restart_now_x (optind w) = Some (Some (verb verb_restart)) /\
  In verb_restart scenario_table /\
  dispatch verb_restart = Some H2 /\
  scenario_dispatch 4 argv_restart_now_x w =
    Ok (- EINVAL) (emit (EvLog LOG_ERR 0 "Too many arguments.") w) /\
  calls (emit (EvLog LOG_ERR 0 "Too many arguments.") w) = [] /\
  (forall w1,
     scenario_dispatch 4 argv_restart_now_x w <>
     scenario_invoke H2 (4 - optind w) slice tt
       (emit (EvCall H2 (4 - optind w) slice) w1)) /\
  (exists w',
     scenario_dispatch 2 argv_restart (scenario_world 1 (-6) 1 0) = Ok 0 w' /\
     calls w' = []) /\
  (exists w',
     scenario_dispatch 2 argv_restart (scenario_world 1 (-6) 0 (-1)) =
       Ok (-1) w' /\
     calls w' = []).
Proof.
  intros w slice.
  split; [discriminate|].
  split; [reflexivity|].
  split; [simpl; auto|].
  split; [reflexivity|].
  split; [reflexivity|].
  split; [reflexivity|].
  split; [intros w1 H; vm_compute in H; discriminate H|].
  split; eexists; split; reflexivity.
Qed.

(** ** C2 *)

(** The theorem on the invocation without a verb. *)
Lemma dispatch_verb_default_witness :
  let w := scenario_world 1 (-6) 0 0 in
  scenario_dispatch 1 argv_none w =
  scenario_invoke H1 1 [Some "status"; None] tt
    (emit (EvCall H1 1 [Some "status"; None]) w).
Proof.
  intros w.
  apply (dispatch_verb_default scenario_invoke 1 argv_none tt w w
           [] [verb_restart; verb_end] verb_status H1).
  - apply int_max_pos. lia.
  - simpl. lia.
  - reflexivity.
  - constructor.
  - reflexivity.
  - reflexivity.
  - right. simpl. lia.
  - right. simpl. lia.
  - reflexivity.
  - intros H. discriminate H.
Defined.

(** C2 as stated fails at each of the three gates. When the default verb
    is online-only and [SYSTEMD_OFFLINE] is set, [dispatch_verb] returns
    [0] after the notice and the handler of the default entry is not
    called; a default verb that wants an operand is refused with
    [-EINVAL], and one that wants root fails with the error of
    [must_be_root], again with no call recorded. *)
Lemma dispatch_verb_default_counterexample :
  let w := scenario_world 1 1 0 0 in
  let run := dispatch_verb scenario_invoke 1 argv_none unit_table tt w in
  dispatch verb_list <> None /\
  has_flag verb_list VERB_DEFAULT = true /\
  dispatch verb_list = Some H1 /\
  argv_at argv_none (optind w) = Some None /\
  run = Ok 0 (emit (EvLog LOG_INFO 0 "Running in chroot, ignoring request.") w) /\
  calls (emit (EvLog LOG_INFO 0 "Running in chroot, ignoring request.") w) = [] /\
  (forall w1,
     run <> scenario_invoke H1 1 [Some (verb verb_list); None] tt
              (emit (EvCall H1 1 [Some (verb verb_list); None]) w1)) /\
  (has_flag verb_exec VERB_DEFAULT = true /\
   exists w',
     dispatch_verb scenario_invoke 1 argv_none exec_table tt
       (scenario_world 1 0 0 0) = Ok (- EINVAL) w' /\
     calls w' = []) /\
  (has_flag verb_reload VERB_DEFAULT = true /\
   exists w',
     dispatch_verb scenario_invoke 1 argv_none reload_table tt
       (scenario_world 1 0 0 (-1)) = Ok (-1) w' /\
     calls w' = []).
Proof.
  intros w run.
  split; [discriminate|].
  split; [reflexivity|].
  split; [reflexivity|].
  split; [reflexivity|].
  split; [reflexivity|].
  split; [reflexivity|].
  split; [intros w1 H; vm_compute in H; discriminate H|].
  split; (split; [reflexivity|eexists; split; reflexivity]).
Qed.

(** ** C3 *)

(** The theorem on [enable] (one argument, two wanted), [list x] (two
    arguments, one allowed, no lower bound), the default [list] (lower
    bound [VERB_ANY]) and [enable a b] (upper bound [VERB_ANY]). *)
Lemma dispatch_verb_argument_count_witness :
  let w := scenario_world 1 0 0 0 in
  dispatch_verb scenario_invoke 2 argv_enable unit_table tt w =
    Ok (- EINVAL) (emit (EvLog LOG_ERR 0 "Too few arguments.") w) /\
  dispatch_verb scenario_invoke 3 argv_list_x unit_table tt w =
    Ok (- EINVAL) (emit (EvLog LOG_ERR 0 "Too many arguments.") w) /\
  dispatch_verb scenario_invoke 1 argv_none unit_table tt w =
    run_verb scenario_invoke None 1 verb_list H1 argv_none tt w /\
  dispatch_verb scenario_invoke 4 argv_enable_a_b unit_table tt w =
    run_verb scenario_invoke (Some "enable") 3 verb_enable H2 argv_enable_a_b
      tt w.
Proof.
  intros w.
  assert (1 <= 2 <= 1000) as Ha2 by lia.
  assert (1 <= 3 <= 1000) as Ha3 by lia.
  assert (1 <= 4 <= 1000) as Ha4 by lia.
  split; [|split; [|split]].
  - destruct (dispatch_verb_argument_count scenario_invoke 2 argv_enable tt w
                (Some "enable") [verb_list] [verb_end] verb_enable H2
                (unit_enable_matched 2 argv_enable [None] 0 0 0 Ha2 eq_refl))
      as (Hfew & _).
    apply Hfew.
    + discriminate.
    + simpl. lia.
  - destruct (dispatch_verb_argument_count scenario_invoke 3 argv_list_x tt w
                (Some "list") [] [verb_enable; verb_end] verb_list H1
                (unit_list_matched 3 argv_list_x [Some "x"; None] 0 0 0 Ha3
                   eq_refl))
      as (_ & Hmany & _).
    apply Hmany.
    + left. reflexivity.
    + discriminate.
    + simpl. lia.
  - destruct (dispatch_verb_argument_count scenario_invoke 1 argv_none tt w
                None [] [verb_enable; verb_end] verb_list H1
                (unit_default_matched 0 0 0))
      as (_ & _ & Hmin & _).
    apply Hmin.
    + reflexivity.
    + right. simpl. lia.
  - destruct (dispatch_verb_argument_count scenario_invoke 4 argv_enable_a_b
                tt w (Some "enable") [verb_list] [verb_end] verb_enable H2
                (unit_enable_matched 4 argv_enable_a_b
                   [Some "a"; Some "b"; None] 0 0 0 Ha4 eq_refl))
      as (_ & _ & _ & Hmax).
    apply Hmax.
    + reflexivity.
    + right. simpl. lia.
Defined.

(** ** C4 *)

(** The theorem on [restart] in a chroot with [SYSTEMD_OFFLINE] unset, on
    [restart] with [SYSTEMD_OFFLINE] true, and on [restart now x] in a
    chroot. *)
Lemma dispatch_verb_offline_skip_witness :
  let w := scenario_world 1 (-6) 1 0 in
  let w1 := emit (EvLog LOG_DEBUG (-6) "Parsing SYSTEMD_OFFLINE: %m") w in
  let w' := scenario_world 1 1 0 0 in
  let notice :=
    EvLog LOG_INFO 0 "Running in chroot, ignoring request: restart" in
  (scenario_dispatch 2 argv_restart w = Ok 0 (emit notice w1) /\
   calls (emit notice w1) = calls w /\
   trace (emit notice w1) =
   [EvLog LOG_DEBUG (-6) "Parsing SYSTEMD_OFFLINE: %m"; notice]) /\
  (scenario_dispatch 2 argv_restart w' = Ok 0 (emit notice w') /\
   calls (emit notice w') = calls w' /\
   trace (emit notice w') = [notice]) /\
  exists msg,
    scenario_dispatch 4 argv_restart_now_x w =
    Ok (- EINVAL) (emit (EvLog LOG_ERR 0 msg) w).
Proof.
  intros w w1 w' notice.
  assert (1 <= 2 <= 1000) as Ha2 by lia.
  assert (1 <= 4 <= 1000) as Ha4 by lia.
  assert (min_ok verb_restart 1) as Hmin by (right; simpl; lia).
  assert (max_ok verb_restart 1) as Hmax by (right; simpl; lia).
  split; [|split].
  - exact (proj1 (dispatch_verb_offline_skip scenario_invoke 2 argv_restart
                    tt w w1
                    (Some "restart") [verb_status] [verb_end] verb_restart H2
                    (scenario_restart_matched 2 argv_restart [None] (-6) 1 0
                       Ha2 eq_refl)
                    eq_refl eq_refl) Hmin Hmax).
  - exact (proj1 (dispatch_verb_offline_skip scenario_invoke 2 argv_restart
                    tt w' w'
                    (Some "restart") [verb_status] [verb_end] verb_restart H2
                    (scenario_restart_matched 2 argv_restart [None] 1 0 0
                       Ha2 eq_refl)
                    eq_refl eq_refl) Hmin Hmax).
  - apply (proj2 (dispatch_verb_offline_skip scenario_invoke 4
                    argv_restart_now_x tt w w1
                    (Some "restart") [verb_status] [verb_end] verb_restart H2
                    (scenario_restart_matched 4 argv_restart_now_x
                       [Some "now"; Some "x"; None] (-6) 1 0 Ha4 eq_refl)
                    eq_refl eq_refl)).
    intros [_ [Hmax'|Hmax']]; simpl in Hmax'.
    + discriminate Hmax'.
    + lia.
Defined.

(** C4 as stated fails when the predicate has to fall through to the
    probe: for [restart] in a chroot with [SYSTEMD_OFFLINE] unset the entry
    is matched and online-only, its count is within bounds and the
    predicate answers true, yet what [dispatch_verb] emits is not the
    notice alone: a line of debug level comes before it. *)
Lemma dispatch_verb_offline_skip_counterexample :
  let w := scenario_world 1 (-6) 1 0 in
  let notice :=
    EvLog LOG_INFO 0 "Running in chroot, ignoring request: restart" in
  argv_at argv_restart (optind w) = Some (Some (verb verb_restart)) /\
  has_flag verb_restart VERB_ONLINE_ONLY = true /\
  (exists w1, running_in_chroot_or_offline w = Ok true w1) /\
  min_args verb_restart <= 2 - optind w <= max_args verb_restart /\
  exists w',
    scenario_dispatch 2 argv_restart w = Ok 0 w' /\
    trace w' =
      trace w ++ [EvLog LOG_DEBUG (-6) "Parsing SYSTEMD_OFFLINE: %m"; notice] /\
    trace w' <> trace w ++ [notice].
Proof.
  intros w notice.
  split; [reflexivity|].
  split; [reflexivity|].
  split; [eexists; reflexivity|].
  split; [simpl; lia|].
  eexists. split; [reflexivity|]. split; [reflexivity|].
  simpl. discriminate.
Qed.

(** ** C5 *)

(** The theorem on [restart], online and without privilege. *)
Lemma dispatch_verb_privilege_denied_witness :
  let w := scenario_world 1 0 0 (-1) in
  scenario_dispatch 2 argv_restart w = Ok (-1) w /\ calls w = calls w.
Proof.
  intros w.
  assert (1 <= 2 <= 1000) as Ha2 by lia.
  apply (dispatch_verb_privilege_denied scenario_invoke 2 argv_restart tt w w
           (Some "restart") [verb_status] [verb_end] verb_restart H2
           (scenario_restart_matched 2 argv_restart [None] 0 0 (-1) Ha2 eq_refl)).
  - right. simpl. lia.
  - right. simpl. lia.
  - reflexivity.
  - reflexivity.
  - simpl. lia.
Defined.

(** ** C6 *)

(** The theorem on the verb [frobnicate], and on no verb for a table
    without a default. *)
Lemma dispatch_verb_lookup_failure_witness :
  let w := scenario_world 1 0 0 0 in
  scenario_dispatch 2 argv_frobnicate w =
    Ok (- EINVAL) (emit (EvLog LOG_ERR 0 "Unknown operation frobnicate.") w) /\
  dispatch_verb scenario_invoke 1 argv_none [verb_restart; verb_end] tt w =
    Ok (- EINVAL) (emit (EvLog LOG_ERR 0 "Requires operation parameter.") w).
Proof.
  intros w. split.
  - assert (0 <= 2 <= INT_MAX) as Hargc by (apply int_max_pos; lia).
    assert (optind w <= 2) as Hoi by (simpl; lia).
    assert ([verb_status; verb_restart] <> []) as Hne by discriminate.
    apply (proj1 (dispatch_verb_lookup_failure scenario_invoke 2
                    argv_frobnicate tt w (Some "frobnicate")
                    [verb_status; verb_restart] [] verb_end
                    Hargc Hoi eq_refl Hne eq_refl) "frobnicate" eq_refl).
    repeat constructor; discriminate.
  - assert (0 <= 1 <= INT_MAX) as Hargc by (apply int_max_pos; lia).
    assert (optind w <= 1) as Hoi by (simpl; lia).
    assert ([verb_restart] <> []) as Hne by discriminate.
    apply (proj1 (proj2 (dispatch_verb_lookup_failure scenario_invoke 1
                           argv_none tt w None [verb_restart] [] verb_end
                           Hargc Hoi eq_refl Hne eq_refl)) eq_refl).
    repeat constructor; discriminate.
Defined.

(** ** C7 *)

(** [frobnicate] fails as UnknownVerb, [restart now x] as
    TooManyArguments, [restart] without privilege as PermissionDenied. *)
Lemma scenario_fails_unknown :
  Fails 2 argv_frobnicate (scenario_world 1 0 0 (-1)) scenario_table UnknownVerb.
Proof.
  apply (Fails_unknown 2 argv_frobnicate _ "frobnicate"
           [verb_status; verb_restart] [] verb_end).
  - apply int_max_pos. lia.
  - simpl. lia.
  - reflexivity.
  - discriminate.
  - reflexivity.
  - repeat constructor; discriminate.
Defined.

Lemma scenario_fails_too_many :
  Fails 4 argv_restart_now_x (scenario_world 1 0 0 (-1)) scenario_table
    TooManyArguments.
Proof.
  assert (1 <= 4 <= 1000) as Ha4 by lia.
  apply (Fails_too_many 4 argv_restart_now_x _ (Some "restart")
           [verb_status] [verb_end] verb_restart H2
           (scenario_restart_matched 4 argv_restart_now_x
              [Some "now"; Some "x"; None] 0 0 (-1) Ha4 eq_refl)).
  - right. simpl. lia.
  - discriminate.
  - simpl. lia.
Defined.

Lemma scenario_fails_denied :
  Fails 2 argv_restart (scenario_world 1 0 0 (-1)) scenario_table
    PermissionDenied.
Proof.
  assert (1 <= 2 <= 1000) as Ha2 by lia.
  apply (Fails_denied 2 argv_restart _ (Some "restart")
           [verb_status] [verb_end] verb_restart H2 (scenario_world 1 0 0 (-1))
           (scenario_restart_matched 2 argv_restart [None] 0 0 (-1) Ha2
              eq_refl)).
  - right. simpl. lia.
  - right. simpl. lia.
  - reflexivity.
  - reflexivity.
  - simpl. lia.
Defined.

(** The theorem on these three failures. *)
Lemma dispatch_verb_error_code_witness :
  let w := scenario_world 1 0 0 (-1) in
  (exists w', scenario_dispatch 2 argv_frobnicate w = Ok (- EINVAL) w' /\
              calls w' = calls w) /\
  (exists w', scenario_dispatch 4 argv_restart_now_x w = Ok (- EINVAL) w' /\
              calls w' = calls w) /\
  (exists w', scenario_dispatch 2 argv_restart w = Ok (-1) w' /\
              calls w' = calls w).
Proof.
  intros w. split; [|split].
  - exact (dispatch_verb_error_code scenario_invoke 2 argv_frobnicate tt w
             scenario_table UnknownVerb scenario_fails_unknown).
  - exact (dispatch_verb_error_code scenario_invoke 4 argv_restart_now_x tt w
             scenario_table TooManyArguments scenario_fails_too_many).
  - exact (dispatch_verb_error_code scenario_invoke 2 argv_restart tt w
             scenario_table PermissionDenied scenario_fails_denied).
Defined.

(** C7 as stated fails: two failures of different kinds, an unknown verb
    and an argument too many, come back with the same error code, so
    that the code does not tell the kind. *)
Lemma dispatch_verb_error_code_counterexample :
  let w := scenario_world 1 0 0 (-1) in
  Fails 2 argv_frobnicate w scenario_table UnknownVerb /\
  Fails 4 argv_restart_now_x w scenario_table TooManyArguments /\
  UnknownVerb <> TooManyArguments /\
  scenario_dispatch 2 argv_frobnicate w =
    Ok (-22) (emit (EvLog LOG_ERR 0 "Unknown operation frobnicate.") w) /\
  scenario_dispatch 4 argv_restart_now_x w =
    Ok (-22) (emit (EvLog LOG_ERR 0 "Too many arguments.") w).
Proof.
  intros w.
  split; [exact scenario_fails_unknown|].
  split; [exact scenario_fails_too_many|].
  split; [discriminate|].
  split; reflexivity.
Qed.

(** ** C8 *)

(** The theorem with [SYSTEMD_OFFLINE] true, false and unset; in the last
    case, in and out of a chroot. *)
Lemma running_in_chroot_or_offline_override_witness :
  running_in_chroot_or_offline (scenario_world 1 1 0 0) =
    Ok true (scenario_world 1 1 0 0) /\
  running_in_chroot_or_offline (scenario_world 1 0 1 0) =
    Ok false (scenario_world 1 0 1 0) /\
  (exists b w',
     running_in_chroot_or_offline (scenario_world 1 (-6) 1 0) = Ok b w' /\
     (b = true <-> 0 < 1) /\
     exists rest,
       trace w' = [EvLog LOG_DEBUG (-6) "Parsing SYSTEMD_OFFLINE: %m"] ++ rest) /\
  (exists b w',
     running_in_chroot_or_offline (scenario_world 1 (-6) 0 0) = Ok b w' /\
     (b = true <-> 0 < 0) /\
     exists rest,
       trace w' = [EvLog LOG_DEBUG (-6) "Parsing SYSTEMD_OFFLINE: %m"] ++ rest).
Proof.
  split; [|split; [|split]].
  - apply (proj1 (running_in_chroot_or_offline_override (scenario_world 1 1 0 0))).
    simpl. lia.
  - apply (proj1 (proj2 (running_in_chroot_or_offline_override
                           (scenario_world 1 0 1 0)))).
    reflexivity.
  - apply (proj2 (proj2 (running_in_chroot_or_offline_override
                           (scenario_world 1 (-6) 1 0)))).
    simpl. lia.
  - apply (proj2 (proj2 (running_in_chroot_or_offline_override
                           (scenario_world 1 (-6) 0 0)))).
    simpl. lia.
Defined.

(** ** C9 *)

(** The theorem on the invocation without a verb and on [restart]. *)
Lemma dispatch_verb_reads_name_witness :
  (exists p,
     argv_at argv_none 1 = Some p /\ (p = None <-> 1 = 1) /\
     (1 <= INT_MAX -> dispatch verb_status <> None ->
      scenario_dispatch 1 argv_none (scenario_world 1 0 0 0) =
      match find_verb p scenario_table (scenario_world 1 0 0 0) with
      | Ok (inl code) w' => Ok code w'
      | Ok (inr (v, h)) w' =>
          check_verb scenario_invoke p (1 - 1) v h argv_none tt w'
      | Abort => Abort
      | Undef => Undef
      end)) /\
  (exists p,
     argv_at argv_restart 1 = Some p /\ (p = None <-> 1 = 2) /\
     (2 <= INT_MAX -> dispatch verb_status <> None ->
      scenario_dispatch 2 argv_restart (scenario_world 1 0 0 0) =
      match find_verb p scenario_table (scenario_world 1 0 0 0) with
      | Ok (inl code) w' => Ok code w'
      | Ok (inr (v, h)) w' =>
          check_verb scenario_invoke p (2 - 1) v h argv_restart tt w'
      | Abort => Abort
      | Undef => Undef
      end)).
Proof.
  split.
  - apply (dispatch_verb_reads_name scenario_invoke 1 argv_none verb_status
             [verb_restart; verb_end] tt (scenario_world 1 0 0 0)).
    + lia.
    + simpl. lia.
    + reflexivity.
  - apply (dispatch_verb_reads_name scenario_invoke 2 argv_restart verb_status
             [verb_restart; verb_end] tt (scenario_world 1 0 0 0)).
    + lia.
    + simpl. lia.
    + reflexivity.
Defined.

(** C9 as stated fails for a negative [optind]: with [argc = 0],
    [optind = -1] and the argument vector [{NULL}], terminated at index
    [0], the stated preconditions hold and both assertions of
    [dispatch_verb] pass, but [argv[-1]] is read outside the array. *)
Lemma dispatch_verb_reads_name_counterexample :
  let w := scenario_world (-1) 0 0 0 in
  0 <= 0 /\ optind w <= 0 /\ terminated_at [None] 0 = true /\
  argv_at [None] (optind w) = None /\
  scenario_dispatch 0 [None] w = Undef.
Proof.
  intros w.
  split; [lia|].
  split; [simpl; lia|].
  repeat split.
Qed.

(** ** C10 *)

(** The theorem on [restart now], as root, with [SYSTEMD_OFFLINE] unset
    and a probe that fails with [-EPERM]. *)
Lemma running_in_chroot_or_offline_probe_error_witness :
  let w := scenario_world 1 (-6) (-1) 0 in
  let w2 :=
    emit (EvLog LOG_DEBUG (-1) "running_in_chroot(): %m")
      (emit (EvLog LOG_DEBUG (-6) "Parsing SYSTEMD_OFFLINE: %m") w) in
  running_in_chroot_or_offline w = Ok false w2 /\
  scenario_dispatch 3 argv_restart_now w =
  scenario_invoke H2 2 [Some "restart"; Some "now"; None] tt
    (emit (EvCall H2 2 [Some "restart"; Some "now"; None]) w2).
Proof.
  intros w w2.
  assert (env_bool w "SYSTEMD_OFFLINE" < 0) as He by (simpl; lia).
  assert (chroot_probe w < 0) as Hp by (simpl; lia).
  assert (1 <= 3 <= 1000) as Ha3 by lia.
  destruct (running_in_chroot_or_offline_probe_error scenario_invoke w He Hp)
    as [Hrun Hgo].
  split; [exact Hrun|].
  apply (Hgo 3 argv_restart_now tt (Some "restart") [verb_status] [verb_end]
           verb_restart H2
           (scenario_restart_matched 3 argv_restart_now [Some "now"; None]
              (-6) (-1) 0 Ha3 eq_refl)).
  - reflexivity.
  - right. simpl. lia.
  - right. simpl. lia.
  - intros _. simpl. lia.
Defined.

(** * Further properties, on the scenario *)

(** The scan for [restart] and for [frobnicate] in the table of the
    scenario. *)
Lemma find_verb_inversion_witness :
  let w := scenario_world 1 0 0 0 in
  (In verb_restart scenario_table /\
   exists pre post,
     scenario_table = pre ++ verb_restart :: post /\
     passed (Some "restart") pre /\
     found (Some "restart") verb_restart = true /\
     dispatch verb_restart = Some H2) /\
  (exists pre t post,
     scenario_table = pre ++ t :: post /\
     passed (Some "frobnicate") pre /\ dispatch t = None).
Proof.
  intros w. split.
  - destruct (proj1 (find_verb_inversion (Some "restart") scenario_table w)
                verb_restart H2 w eq_refl) as (_ & Hin & Hex).
    split; [exact Hin|exact Hex].
  - destruct (proj1 (proj2 (find_verb_inversion (Some "frobnicate")
                              scenario_table w))
                (- EINVAL)
                (emit (EvLog LOG_ERR 0 "Unknown operation frobnicate.") w)
                eq_refl) as (_ & _ & Hex).
    exact Hex.
Defined.

Lemma scenario_passed_frobnicate :
  passed (Some "frobnicate") [verb_status; verb_restart].
Proof. repeat constructor; discriminate. Defined.

(** The table of the scenario without its terminator, and with it. *)
Lemma find_verb_out_of_bounds_witness :
  let w := scenario_world 1 0 0 0 in
  find_verb (Some "frobnicate") [verb_status; verb_restart] w = Undef /\
  find_verb (Some "frobnicate") scenario_table w <> Undef.
Proof.
  intros w. split.
  - apply (proj1 (find_verb_out_of_bounds (Some "frobnicate")
                    [verb_status; verb_restart] w)).
    exact scenario_passed_frobnicate.
  - apply (proj2 (find_verb_out_of_bounds (Some "frobnicate")
                    scenario_table w)).
    reflexivity.
Defined.

(** [restart now] on the table of the scenario, and on that table followed
    by a second [restart] and no terminator. *)
Lemma dispatch_verb_prefix_witness :
  let w := scenario_world 1 0 0 0 in
  scenario_dispatch 3 argv_restart_now w =
  dispatch_verb scenario_invoke 3 argv_restart_now
    [verb_status; verb_restart; verb_restart] tt w.
Proof.
  intros w.
  apply (dispatch_verb_prefix scenario_invoke 3 argv_restart_now tt w
           (Some "restart") [verb_status] [verb_end] [verb_restart]
           verb_restart).
  - reflexivity.
  - constructor; [|constructor]. split; [discriminate|reflexivity].
  - right. reflexivity.
Defined.

(** No verb after the name of the tool, and no verb after another name in
    a vector that goes on past its end. *)
Lemma dispatch_verb_default_ignores_argv_witness :
  let w := scenario_world 1 0 0 0 in
  scenario_dispatch 1 argv_none w =
  scenario_dispatch 3 [Some "other"; None; Some "x"; Some "y"] w.
Proof.
  intros w.
  apply (dispatch_verb_default_ignores_argv scenario_invoke 1 3 argv_none
           [Some "other"; None; Some "x"; Some "y"] scenario_table tt w).
  - apply int_max_pos. lia.
  - apply int_max_pos. lia.
  - simpl. lia.
  - simpl. lia.
  - reflexivity.
  - reflexivity.
Defined.



(** A lower bound of [1]: [restart] alone passes the check of the count. *)
Lemma dispatch_verb_counts_verb_witness :
  let w := scenario_world 1 0 0 0 in
  1 <= 2 - 1 /\
  scenario_dispatch 2 argv_restart w =
  run_verb scenario_invoke (Some "restart") 1 verb_restart H2 argv_restart tt w.
Proof.
  intros w.
  assert (1 <= 2 <= 1000) as Ha2 by lia.
  destruct (dispatch_verb_counts_verb scenario_invoke 2 argv_restart tt w
              (Some "restart") [verb_status] [verb_end] verb_restart H2
              (scenario_restart_matched 2 argv_restart [None] 0 0 0 Ha2
                 eq_refl)
              eq_refl) as (Hn & Hmin & _).
  split; [exact Hn|].
  apply Hmin.
  - simpl. lia.
  - right. simpl. lia.
Defined.
